(** * Hospital health dashboard (src/app.py): loader, filters, metrics and
    age bucketing, as a shallow embedding.

    Values of a pandas float column are [pyfloat]: a rational or NaN.
    Dates parsed by [pd.to_datetime] are [Datetime] values or NaT ([None]).
    A dataframe is a list of rows; the boolean-mask indexing [df[mask]] is
    [List.filter]; the shared objects of the script ([df], [filtered_df])
    live in an explicit heap in module [Store]. *)

From Stdlib Require Import ZArith QArith Qminmax Lia List String Ascii Permutation Sorted.
From stdpp Require Import base gmap.
Import ListNotations.

Open Scope Z_scope.

(** ** Floats of a pandas column *)

Inductive pyfloat : Type :=
| Num (q : Q)
| NaN.

(** [x < c] and [x > c] on a float: every comparison with NaN is false. *)
Definition py_lt (x : pyfloat) (c : Q) : bool :=
  match x with Num q => negb (Qle_bool c q) | NaN => false end.

Definition py_gt (x : pyfloat) (c : Q) : bool :=
  match x with Num q => negb (Qle_bool q c) | NaN => false end.

Definition py_mul (x : pyfloat) (c : Q) : pyfloat :=
  match x with Num q => Num (q * c)%Q | NaN => NaN end.

(** ** Timestamps *)

(** A parsed [datetime64] value: calendar date and nanoseconds into the day. *)
Record Datetime : Type := mkDatetime {
  dt_year : Z;
  dt_month : Z;
  dt_day : Z;
  dt_nanos : Z
}.

(** Days since 1970-01-01 of a proleptic Gregorian date
    (the civil-to-days conversion numpy uses for [datetime64]). *)
Definition days_from_civil (y m d : Z) : Z :=
  let y' := if m <=? 2 then y - 1 else y in
  let era := y' / 400 in
  let yoe := y' - era * 400 in
  let mp := (m + 9) mod 12 in
  let doy := (153 * mp + 2) / 5 + d - 1 in
  let doe := yoe * 365 + yoe / 4 - yoe / 100 + doy in
  era * 146097 + doe - 719468.

Definition nanos_per_day : Z := 86400 * 1000000000.

(** Nanoseconds since the epoch, the [datetime64[ns]] representation. *)
Definition to_epoch_ns (t : Datetime) : Z :=
  days_from_civil (dt_year t) (dt_month t) (dt_day t) * nanos_per_day + dt_nanos t.

(** The int64 range of a [datetime64[ns]] or [timedelta64[ns]] value;
    its least value is the bit pattern of NaT. *)
Definition int64_min : Z := - 2 ^ 63.
Definition int64_max : Z := 2 ^ 63 - 1.

Inductive LoadError : Type :=
| OverflowError.  (* "Overflow in int64 addition" *)

(** [b - a] on two [datetime64[ns]] values: NaT when an operand is NaT;
    otherwise pandas adds [b] and [-a] with an int64 overflow check
    ([add_overflowsafe]), which raises [OverflowError]; a result equal to
    the NaT pattern reads as NaT. *)
Definition timedelta_ns (b a : option Datetime) : LoadError + option Z :=
  match b, a with
  | Some tb, Some ta =>
      let d := to_epoch_ns tb - to_epoch_ns ta in
      if (d <? int64_min) || (int64_max <? d) then inl OverflowError
      else if d =? int64_min then inr None
      else inr (Some d)
  | _, _ => inr None
  end.

(** [.dt.days]: NaN for NaT, otherwise the [days] component of the
    Timedelta, the floor of the difference in days. *)
Definition timedelta_days (td : option Z) : option Z :=
  option_map (fun d => d / nanos_per_day) td.

(** ** Rows of the CSV and of the loaded table *)

(** A row as read by [pd.read_csv], restricted to the columns the script
    computes with. *)
Record RawRow : Type := mkRawRow {
  raw_date_of_admission : string;
  raw_discharge_date : string;
  raw_age : option Z;
  raw_medical_condition : string;
  raw_test_results : string;
  raw_billing_amount : pyfloat
}.

(** A row of [df] after [load_data]. *)
Record Row : Type := mkRow {
  date_of_admission : option Datetime;
  discharge_date : option Datetime;
  length_of_stay : option Z;
  age : option Z;
  medical_condition : string;
  test_results : string;
  billing_amount : pyfloat
}.

Definition Table : Type := list Row.

(** [Series.clip(lower=0)]: values below the bound are replaced by it,
    NaN stays NaN. *)
Definition clip_lower0 (x : pyfloat) : pyfloat :=
  match x with
  | Num q => if Qle_bool 0 q then Num q else Num 0
  | NaN => NaN
  end.

Section Loader.

(** [pd.to_datetime(column, errors='coerce')] (pandas 2): one format is
    inferred for the whole column, from its values, and every cell is
    parsed with it.  The inference and the parser are pandas' and are left
    abstract. *)
Variable DateFormat : Type.
Variable guess_format : list string -> DateFormat.
Variable parse_with : DateFormat -> string -> option Datetime.

(** One cell: [errors='coerce'] turns a text that does not parse, and a
    timestamp outside the [datetime64[ns]] range, into NaT. *)
Definition to_datetime_cell (f : DateFormat) (s : string) : option Datetime :=
  match parse_with f s with
  | Some t => if (int64_min <? to_epoch_ns t) && (to_epoch_ns t <=? int64_max) then Some t else None
  | None => None
  end.

(** One row of lines 25-32, given the formats inferred for the admission
    and discharge columns; the subtraction of line 29 may raise. *)
Definition load_row (fa fd : DateFormat) (r : RawRow) : LoadError + Row :=
  let adm := to_datetime_cell fa (raw_date_of_admission r) in
  let dis := to_datetime_cell fd (raw_discharge_date r) in
  match timedelta_ns dis adm with
  | inl e => inl e
  | inr td =>
      inr {| date_of_admission := adm;
             discharge_date := dis;
             length_of_stay := timedelta_days td;
             age := raw_age r;
             medical_condition := raw_medical_condition r;
             test_results := raw_test_results r;
             billing_amount := clip_lower0 (raw_billing_amount r) |}
  end.

Fixpoint load_rows (fa fd : DateFormat) (csv : list RawRow) : LoadError + Table :=
  match csv with
  | [] => inr []
  | r :: rest =>
      match load_row fa fd r with
      | inl e => inl e
      | inr row =>
          match load_rows fa fd rest with
          | inl e => inl e
          | inr t => inr (row :: t)
          end
      end
  end.

(** [load_data]: every column operation is element-wise, and an
    exception in any row is raised by the whole function. *)
Definition load_data (csv : list RawRow) : LoadError + Table :=
  load_rows (guess_format (map raw_date_of_admission csv))
            (guess_format (map raw_discharge_date csv)) csv.

End Loader.

Arguments to_datetime_cell {DateFormat} parse_with f s.
Arguments load_row {DateFormat} parse_with fa fd r.
Arguments load_rows {DateFormat} parse_with fa fd csv.
Arguments load_data {DateFormat} guess_format parse_with csv.

(** ** Sidebar filters (lines 72-95) *)

(** An option of a [selectbox]: the sentinel string or a value. *)
Inductive SelectOption : Type :=
| OptStr (s : string)
| OptNum (z : Z).

Definition year_all : string := "Semua Tahun".
Definition condition_all : string := "Semua Kondisi".

Record Config : Type := mkConfig {
  year_filter : SelectOption;
  condition_filter : string;
  age_range : Z * Z
}.

(** [year_filter != "Semua Tahun"] *)
Definition year_active (cfg : Config) : bool :=
  match year_filter cfg with
  | OptStr s => negb (String.eqb s year_all)
  | OptNum _ => true
  end.

(** [filtered_df['date_of_admission'].dt.year == year_filter] on one row:
    NaT has year NaN, equal to nothing; a float is never equal to a string. *)
Definition year_eq (d : option Datetime) (y : SelectOption) : bool :=
  match d, y with
  | Some t, OptNum z => Z.eqb (dt_year t) z
  | _, _ => false
  end.

Definition year_pred (cfg : Config) (r : Row) : bool :=
  year_eq (date_of_admission r) (year_filter cfg).

(** [condition_filter != "Semua Kondisi"] *)
Definition condition_active (cfg : Config) : bool :=
  negb (String.eqb (condition_filter cfg) condition_all).

Definition condition_pred (cfg : Config) (r : Row) : bool :=
  String.eqb (medical_condition r) (condition_filter cfg).

(** [(age >= age_range[0]) & (age <= age_range[1])]; NaN compares false. *)
Definition age_pred (cfg : Config) (r : Row) : bool :=
  match age r with
  | Some a => (fst (age_range cfg) <=? a) && (a <=? snd (age_range cfg))
  | None => false
  end.

Definition year_step (cfg : Config) (t : Table) : Table :=
  if year_active cfg then List.filter (year_pred cfg) t else t.

Definition condition_step (cfg : Config) (t : Table) : Table :=
  if condition_active cfg then List.filter (condition_pred cfg) t else t.

Definition age_step (cfg : Config) (t : Table) : Table :=
  List.filter (age_pred cfg) t.

(** Lines 90-95, on values: [df.copy()] then the three steps in the
    order of the source. *)
Definition filter_df (cfg : Config) (df : Table) : Table :=
  age_step cfg (condition_step cfg (year_step cfg df)).

(** ** Quick stats (lines 104-117) *)

Definition of_option_Z (x : option Z) : pyfloat :=
  match x with Some z => Num (inject_Z z) | None => NaN end.

(** A boolean column viewed as floats: [True] is 1.0, [False] is 0.0. *)
Definition of_bool (b : bool) : pyfloat := if b then Num 1 else Num 0.

Fixpoint non_nan (xs : list pyfloat) : list Q :=
  match xs with
  | [] => []
  | Num q :: rest => q :: non_nan rest
  | NaN :: rest => non_nan rest
  end.

Definition Qsum (qs : list Q) : Q := fold_right Qplus 0%Q qs.

(** [Series.mean()] with its default [skipna=True]: NaN when no
    non-missing value is left. *)
Definition py_mean (xs : list pyfloat) : pyfloat :=
  match non_nan xs with
  | [] => NaN
  | ys => Num (Qsum ys / inject_Z (Z.of_nat (length ys)))%Q
  end.

(** *** Rendering of [f"{x:.Nf}"] and [f"{x:,.Nf}"] *)

(** Round to the nearest integer, ties to even. *)
Definition round_half_even (q : Q) : Z :=
  let n := Qnum q in
  let d := Zpos (Qden q) in
  let fl := n / d in
  let r2 := 2 * (n - fl * d) in
  if r2 <? d then fl
  else if d <? r2 then fl + 1
  else if Z.even fl then fl else fl + 1.

Fixpoint uint_chars (u : Decimal.uint) : list ascii :=
  match u with
  | Decimal.Nil => []
  | Decimal.D0 u' => "0"%char :: uint_chars u'
  | Decimal.D1 u' => "1"%char :: uint_chars u'
  | Decimal.D2 u' => "2"%char :: uint_chars u'
  | Decimal.D3 u' => "3"%char :: uint_chars u'
  | Decimal.D4 u' => "4"%char :: uint_chars u'
  | Decimal.D5 u' => "5"%char :: uint_chars u'
  | Decimal.D6 u' => "6"%char :: uint_chars u'
  | Decimal.D7 u' => "7"%char :: uint_chars u'
  | Decimal.D8 u' => "8"%char :: uint_chars u'
  | Decimal.D9 u' => "9"%char :: uint_chars u'
  end.

(** Decimal digits of a non-negative integer. *)
Definition digits (n : Z) : list ascii := uint_chars (N.to_uint (Z.to_N n)).

Definition pad_zeros (width : nat) (cs : list ascii) : list ascii :=
  repeat "0"%char (width - length cs) ++ cs.

(** The [,] option: a comma every three digits, from the right
    (on the reversed digit list). *)
Fixpoint group3_rev (cs : list ascii) : list ascii :=
  match cs with
  | a :: b :: c :: ((_ :: _) as rest) => a :: b :: c :: ","%char :: group3_rev rest
  | _ => cs
  end.

Definition format_float (prec : nat) (grouping : bool) (x : pyfloat) : string :=
  match x with
  | NaN => "nan"
  | Num q =>
      let scale := 10 ^ Z.of_nat prec in
      let a := Z.abs (round_half_even (q * inject_Z scale)) in
      let ip := digits (a / scale) in
      let ip' := if grouping then rev (group3_rev (rev ip)) else ip in
      let fp := match prec with
                | O => []
                | _ => "."%char :: pad_zeros prec (digits (a mod scale))
                end in
      let sign := if Qle_bool 0 q then [] else ["-"%char] in
      string_of_list_ascii (sign ++ ip' ++ fp)
  end.

(** What one [st.metric] call displays. *)
Record Metric : Type := mkMetric {
  metric_label : string;
  metric_value : string;
  metric_delta_color : string
}.

Definition avg_stay (t : Table) : pyfloat :=
  py_mean (map (fun r => of_option_Z (length_of_stay r)) t).

Definition avg_bill (t : Table) : pyfloat :=
  py_mean (map billing_amount t).

(** [(filtered_df['test_results'] == 'Normal').mean() * 100] *)
Definition recovery_rate (t : Table) : pyfloat :=
  py_mul (py_mean (map (fun r => of_bool (String.eqb (test_results r) "Normal")) t)) 100.

Definition stay_metric (t : Table) : Metric :=
  let v := avg_stay t in
  mkMetric "Rata-rata Rawat" (String.append (format_float 1 false v) " hari")
    (if py_lt v 7 then "normal" else "inverse").

Definition bill_metric (t : Table) : Metric :=
  let v := avg_bill t in
  mkMetric "Rata-rata Biaya" (String.append "$" (format_float 0 true v))
    (if py_lt v 20000 then "normal" else "inverse").

Definition recovery_metric (t : Table) : Metric :=
  let v := recovery_rate t in
  mkMetric "Tingkat Pemulihan" (String.append (format_float 1 false v) "%")
    (if py_gt v 60 then "normal" else "inverse").

(** ** Age bucketing: [pd.cut] with its defaults [right=True],
    [include_lowest=False], [duplicates='raise'], [ordered=True] *)

Inductive CutError : Type :=
| BinsNotMonotonic      (* "bins must increase monotonically." *)
| BinEdgesNotUnique     (* "Bin edges must be unique: ..." *)
| LabelsNotUnique       (* "labels must be unique if ordered=True; ..." *)
| LabelsCountMismatch.  (* "Bin labels must be one fewer than the number of bin edges" *)

Fixpoint is_monotonic_increasing (bs : list Z) : bool :=
  match bs with
  | a :: ((b :: _) as rest) => (a <=? b) && is_monotonic_increasing rest
  | _ => true
  end.

Fixpoint nodupb {A : Type} (eqb : A -> A -> bool) (xs : list A) : bool :=
  match xs with
  | [] => true
  | x :: rest => negb (existsb (eqb x) rest) && nodupb eqb rest
  end.

(** [bins.searchsorted(x, side='left')] on sorted bins: the number of
    edges strictly below [x]. *)
Fixpoint searchsorted_left (bins : list Z) (x : Z) : nat :=
  match bins with
  | [] => O
  | b :: rest => if b <? x then S (searchsorted_left rest x) else O
  end.

(** One cell of the result: [na_mask = isna(x) | (ids == len(bins)) | (ids == 0)],
    otherwise [labels[ids - 1]]. *)
Definition cut_value (bins : list Z) (labels : list string) (v : option Z) : option string :=
  match v with
  | None => None
  | Some x =>
      let ids := searchsorted_left bins x in
      if (Nat.eqb ids 0 || Nat.eqb ids (length bins))%bool then None
      else nth_error labels (ids - 1)
  end.

(** [pd.cut(values, bins=bins, labels=labels)], checks in pandas' order;
    [len(labels) != len(bins) - 1] is compared on Python integers. *)
Definition pd_cut (bins : list Z) (labels : list string) (values : list (option Z))
  : CutError + list (option string) :=
  if negb (is_monotonic_increasing bins) then inl BinsNotMonotonic
  else if negb (nodupb Z.eqb bins) && negb (Nat.eqb (length bins) 2) then inl BinEdgesNotUnique
  else if negb (nodupb String.eqb labels) then inl LabelsNotUnique
  else if negb (Nat.eqb (S (length labels)) (length bins)) then inl LabelsCountMismatch
  else inr (map (cut_value bins labels) values).

Definition age_bins : list Z := [0; 18; 35; 50; 65; 100].
Definition age_labels : list string :=
  ["Anak (0-18)"; "Dewasa Muda (19-35)"; "Dewasa (36-50)"; "Lansia (51-65)"; "Manula (65+)"]%string.

(** [filtered_df['kelompok_usia'] = pd.cut(filtered_df['age'], ...)] (line 305) *)
Definition kelompok_usia (t : Table) : CutError + list (option string) :=
  pd_cut age_bins age_labels (map age t).

Definition label_count (l : string) (col : list (option string)) : nat :=
  length (List.filter (fun c => match c with Some l' => String.eqb l l' | None => false end) col).

(** [value_counts()] of a categorical column with its default [dropna=True]:
    one count per category, missing cells not counted.  pandas then sorts
    the pairs by count, a permutation left out here. *)
Definition value_counts (labels : list string) (col : list (option string)) : list (nat * string) :=
  map (fun l => (label_count l col, l)) labels.

(** The three filter steps of lines 91-95, and their application in a
    given order. *)
Definition filter_steps (cfg : Config) : list (Table -> Table) :=
  [year_step cfg; condition_step cfg; age_step cfg].

Definition compose_steps (steps : list (Table -> Table)) (t : Table) : Table :=
  fold_left (fun acc step => step acc) steps t.

(** ** The script's objects: [df], its copy and the filtered views *)

Module Store.

(** A dataframe object: its rows and, once assigned (line 305), the
    [kelompok_usia] column. *)
Record Frame : Type := mkFrame {
  fr_rows : Table;
  fr_kelompok_usia : option (list (option string))
}.

Record Heap : Type := mkHeap {
  objects : gmap nat Frame;
  next_loc : nat
}.

Inductive Exc : Type :=
| KeyError
| ValueError (e : CutError).

(** Python statements on the heap: a raised exception keeps the heap as
    it was when it was raised. *)
Definition M (A : Type) : Type := Heap -> (Exc + A) * Heap.

Definition ret {A : Type} (a : A) : M A := fun h => (inr a, h).

Definition bind {A B : Type} (m : M A) (k : A -> M B) : M B :=
  fun h => match m h with
           | (inl e, h') => (inl e, h')
           | (inr a, h') => k a h'
           end.

Notation "x <- m ;; k" := (bind m (fun x => k)) (at level 62, m at next level, right associativity).

Definition raise {A : Type} (e : Exc) : M A := fun h => (inl e, h).

Definition read (l : nat) : M Frame :=
  fun h => match objects h !! l with
           | Some f => (inr f, h)
           | None => (inl KeyError, h)
           end.

Definition alloc (f : Frame) : M nat :=
  fun h => (inr (next_loc h), mkHeap (<[next_loc h := f]> (objects h)) (S (next_loc h))).

Definition write (l : nat) (f : Frame) : M unit :=
  fun h => (inr tt, mkHeap (<[l := f]> (objects h)) (next_loc h)).

(** [df.copy()]: a new object with the same contents. *)
Definition df_copy (l : nat) : M nat :=
  f <- read l ;; alloc f.

(** [frame[mask]]: a new object with the selected rows of every column. *)
Definition mask_frame (p : Row -> bool) (f : Frame) : Frame :=
  mkFrame (List.filter p (fr_rows f))
    (option_map (fun col => map snd (List.filter (fun rc => p (fst rc)) (combine (fr_rows f) col)))
       (fr_kelompok_usia f)).

Definition getitem_mask (l : nat) (p : Row -> bool) : M nat :=
  f <- read l ;; alloc (mask_frame p f).

(** Lines 90-95: the variable [filtered_df] ends up naming the returned object. *)
Definition apply_filters (cfg : Config) (df : nat) : M nat :=
  f0 <- df_copy df ;;
  f1 <- (if year_active cfg then getitem_mask f0 (year_pred cfg) else ret f0) ;;
  f2 <- (if condition_active cfg then getitem_mask f1 (condition_pred cfg) else ret f1) ;;
  getitem_mask f2 (age_pred cfg).

(** Line 305: [filtered_df['kelompok_usia'] = pd.cut(...)], an in-place
    column assignment on the object [filtered_df] names. *)
Definition assign_kelompok_usia (l : nat) : M unit :=
  f <- read l ;;
  match kelompok_usia (fr_rows f) with
  | inl e => raise (ValueError e)
  | inr col => write l (mkFrame (fr_rows f) (Some col))
  end.

(** The demographics page: filtering, then the age-group column. *)
Definition demografi_script (cfg : Config) (df : nat) : M nat :=
  f <- apply_filters cfg df ;;
  _ <- assign_kelompok_usia f ;;
  ret f.

End Store.

(** ** Concrete tables used by the examples below *)

Definition example_row (y : Z) (cond : string) (a : Z) : Row :=
  mkRow (Some (mkDatetime y 1 1 0)) (Some (mkDatetime y 1 5 0)) (Some 4) (Some a)
    cond "Normal" (Num 1000).

Definition example_table : Table :=
  [example_row 2022 "Diabetes" 30; example_row 2023 "Diabetes" 70].

Definition example_cfg : Config := mkConfig (OptNum 2022) condition_all (0, 100).

(** A year with no admissions in [example_table]. *)
Definition empty_cfg : Config := mkConfig (OptNum 2024) condition_all (0, 100).

(** A parser for the format pandas infers from ISO dates, [%Y-%m-%d],
    used to run the loader on concrete rows. *)
Definition digit_of (c : ascii) : option Z :=
  let n := Z.of_nat (nat_of_ascii c) - 48 in
  if (0 <=? n) && (n <=? 9) then Some n else None.

Fixpoint number_of (cs : list ascii) (acc : Z) : option Z :=
  match cs with
  | [] => Some acc
  | c :: rest => match digit_of c with
                 | Some k => number_of rest (10 * acc + k)
                 | None => None
                 end
  end.

Definition leap_year (y : Z) : bool :=
  ((y mod 4 =? 0) && negb (y mod 100 =? 0)) || (y mod 400 =? 0).

Definition days_in_month (y m : Z) : Z :=
  if m =? 2 then (if leap_year y then 29 else 28)
  else if (m =? 4) || (m =? 6) || (m =? 9) || (m =? 11) then 30
  else 31.

Definition parse_iso (s : string) : option Datetime :=
  match list_ascii_of_string s with
  | [y1; y2; y3; y4; s1; m1; m2; s2; d1; d2] =>
      if Ascii.eqb s1 "-"%char && Ascii.eqb s2 "-"%char then
        match number_of [y1; y2; y3; y4] 0, number_of [m1; m2] 0, number_of [d1; d2] 0 with
        | Some y, Some m, Some d =>
            if (1 <=? m) && (m <=? 12) && (1 <=? d) && (d <=? days_in_month y m)
            then Some (mkDatetime y m d 0) else None
        | _, _, _ => None
        end
      else None
  | _ => None
  end.

(** [pd.to_datetime] on columns of ISO dates: one format, [%Y-%m-%d]. *)
Definition iso_guess (_ : list string) : unit := tt.
Definition iso_parse (_ : unit) (s : string) : option Datetime := parse_iso s.

Definition example_csv : list RawRow :=
  [mkRawRow "2022-01-01" "2022-01-05" (Some 30) "Diabetes" "Normal" (Num (-500));
   mkRawRow "2023-02-28" "not a date" (Some 70) "Asthma" "Abnormal" (Num 1500)].

(** Two parseable dates 300 years apart. *)
Definition far_apart_csv : list RawRow :=
  [mkRawRow "1700-01-01" "2000-01-01" (Some 40) "Diabetes" "Normal" (Num 1000)].

(** A table with a negative age, below every [pd.cut] edge; its ages
    range over [-1, 90], which contains the slider's default (13, 89). *)
Definition negative_age_table : Table :=
  [example_row 2022 "Diabetes" (-1); example_row 2022 "Asthma" 50;
   example_row 2023 "Diabetes" 90].

(** The slider moved to its full range, both selectboxes on their sentinels. *)
Definition full_range_cfg : Config := mkConfig (OptStr year_all) condition_all (-1, 90).

(** ** Column names (line 22): [str.strip().str.lower().str.replace(' ', '_')]
    on ASCII header text *)

(** [str.isspace] on ASCII: \t \n \v \f \r, the separators \x1c-\x1f, space. *)
Definition is_space (c : ascii) : bool :=
  let n := nat_of_ascii c in
  (Nat.leb 9 n && Nat.leb n 13) || (Nat.leb 28 n && Nat.leb n 32).

Fixpoint lstrip (cs : list ascii) : list ascii :=
  match cs with
  | [] => []
  | c :: rest => if is_space c then lstrip rest else cs
  end.

Definition strip (cs : list ascii) : list ascii := rev (lstrip (rev (lstrip cs))).

Definition lower_char (c : ascii) : ascii :=
  let n := nat_of_ascii c in
  if Nat.leb 65 n && Nat.leb n 90 then ascii_of_nat (n + 32) else c.

Definition replace_space (c : ascii) : ascii :=
  if Ascii.eqb c " "%char then "_"%char else c.

Definition normalize_column (s : string) : string :=
  string_of_list_ascii (map replace_space (map lower_char (strip (list_ascii_of_string s)))).

(** ** Selectbox options (lines 72-80) *)

(** [Series.unique()]: first occurrences, in order. *)
Fixpoint unique_aux {A : Type} (eqb : A -> A -> bool) (seen l : list A) : list A :=
  match l with
  | [] => []
  | x :: rest => if existsb (eqb x) seen then unique_aux eqb seen rest
                 else x :: unique_aux eqb (x :: seen) rest
  end.

Definition py_unique {A : Type} (eqb : A -> A -> bool) (l : list A) : list A :=
  unique_aux eqb [] l.

Fixpoint insert_sorted {A : Type} (leb : A -> A -> bool) (x : A) (l : list A) : list A :=
  match l with
  | [] => [x]
  | y :: rest => if leb x y then x :: l else y :: insert_sorted leb x rest
  end.

(** [sorted(...)] on distinct values (every sort gives the same list). *)
Definition py_sorted {A : Type} (leb : A -> A -> bool) (l : list A) : list A :=
  fold_right (insert_sorted leb) [] l.

(** [df['date_of_admission'].dt.year.dropna()] *)
Definition year_values (t : Table) : list Z :=
  flat_map (fun r => match date_of_admission r with Some d => [dt_year d] | None => [] end) t.

Definition year_options (t : Table) : list SelectOption :=
  OptStr year_all :: map OptNum (py_sorted Z.leb (py_unique Z.eqb (year_values t))).

(** Python's [<=] on str: code point order, byte order on UTF-8 text. *)
(** ** Most common conditions (lines 156-162) *)

Definition count_str (c : string) (col : list string) : nat :=
  length (List.filter (String.eqb c) col).

(** [value_counts()] of a string column before its sort by count: one
    pair per distinct value.  pandas then orders the pairs by count; the
    theorems below hold for every order of them. *)
Definition value_counts_str (col : list string) : list (string * nat) :=
  map (fun c => (c, count_str c col)) (py_unique String.eqb col).

(** [(count / len(filtered_df)) * 100] *)
Definition percentage (count total : nat) : Q :=
  (inject_Z (Z.of_nat count) / inject_Z (Z.of_nat total) * 100)%Q.

(** The loop body, for the pairs [top_conditions = ....head(10)] in the
    order pandas gives them: the condition, its count, the percentage and
    the value passed to [st.progress]. *)
Definition top_condition_rows (ordered : list (string * nat)) (t : Table)
  : list (string * nat * Q * Q) :=
  map (fun p => let pct := percentage (snd p) (length t) in (fst p, snd p, pct, (pct / 100)%Q))
    (firstn 10 ordered).

(** ** Seasonal pattern (lines 166-170) *)

(** [all_months.map(monthly_visits).fillna(0)]: the visits of each month
    1..12, 0 for a month absent from the counts. *)
Definition month_counts (t : Table) : list nat :=
  map (fun m => length (List.filter (fun r => match date_of_admission r with
                                              | Some d => Z.eqb (dt_month d) m
                                              | None => false
                                              end) t))
    [1; 2; 3; 4; 5; 6; 7; 8; 9; 10; 11; 12].

(** ** Age slider bounds (lines 82-87) *)

(** [Series.min()] and [Series.max()] with their default [skipna=True]:
    the missing values are skipped, and the result is NaN ([None]) when
    no value is left. *)
Definition series_min (xs : list (option Z)) : option Z :=
  fold_left (fun acc x => match x, acc with
                          | None, _ => acc
                          | Some b, None => Some b
                          | Some b, Some a => Some (Z.min a b)
                          end) xs None.

Definition series_max (xs : list (option Z)) : option Z :=
  fold_left (fun acc x => match x, acc with
                          | None, _ => acc
                          | Some b, None => Some b
                          | Some b, Some a => Some (Z.max a b)
                          end) xs None.

(** [(int(df['age'].min()), int(df['age'].max()))]: [int] of a float
    that holds an integer is that integer, and [int(nan)] raises
    [ValueError] ([None]). *)
Definition slider_bounds (t : Table) : option (Z * Z) :=
  match series_min (map age t), series_max (map age t) with
  | Some lo, Some hi => Some (lo, hi)
  | _, _ => None
  end.

(** * Properties *)

(** ** Filtering *)

Lemma filter_filter_and {A : Type} (p q : A -> bool) (l : list A) :
  List.filter p (List.filter q l) = List.filter (fun x => q x && p x) l.
Proof.
  induction l as [|x l IH]; simpl; [reflexivity|].
  destruct (q x); simpl; [destruct (p x); simpl|]; rewrite IH; reflexivity.
Qed.

Lemma filter_all_true {A : Type} (l : list A) : List.filter (fun _ => true) l = l.
Proof. induction l as [|x l IH]; simpl; congruence. Qed.

Lemma filter_ext_eq {A : Type} (p q : A -> bool) (l : list A) :
  (forall x, p x = q x) -> List.filter p l = List.filter q l.
Proof.
  intros Hpq. induction l as [|x l IH]; simpl; [reflexivity|].
  rewrite Hpq, IH. reflexivity.
Qed.

Lemma filter_idem {A : Type} (p : A -> bool) (l : list A) :
  List.filter p (List.filter p l) = List.filter p l.
Proof.
  rewrite filter_filter_and. apply filter_ext_eq. intros x. apply andb_diag.
Qed.

Definition is_filter (s : Table -> Table) : Prop :=
  exists p, forall t, s t = List.filter p t.

Lemma year_step_is_filter cfg : is_filter (year_step cfg).
Proof.
  unfold year_step. destruct (year_active cfg).
  - exists (year_pred cfg). reflexivity.
  - exists (fun _ => true). intros t. symmetry. apply filter_all_true.
Qed.

Lemma condition_step_is_filter cfg : is_filter (condition_step cfg).
Proof.
  unfold condition_step. destruct (condition_active cfg).
  - exists (condition_pred cfg). reflexivity.
  - exists (fun _ => true). intros t. symmetry. apply filter_all_true.
Qed.

Lemma filter_steps_are_filters cfg : Forall is_filter (filter_steps cfg).
Proof.
  repeat constructor.
  - apply year_step_is_filter.
  - apply condition_step_is_filter.
  - exists (age_pred cfg). reflexivity.
Qed.

Lemma compose_steps_perm (l l' : list (Table -> Table)) :
  Permutation l l' -> Forall is_filter l -> forall t, compose_steps l t = compose_steps l' t.
Proof.
  induction 1 as [|s l l' _ IH|s1 s2 l|l l' l'' H1 IH1 _ IH2]; intros Hf t.
  - reflexivity.
  - inversion Hf; subst. apply IH. assumption.
  - inversion Hf as [|? ? [p1 Hp1] Hf']; subst.
    inversion Hf' as [|? ? [p2 Hp2] _]; subst.
    unfold compose_steps; simpl. f_equal.
    rewrite Hp1, Hp2, Hp1, Hp2, !filter_filter_and.
    apply filter_ext_eq. intros x. apply andb_comm.
  - rewrite IH1 by assumption. apply IH2.
    exact (Permutation_Forall H1 Hf).
Qed.

(** [filter_df] keeps, in order, the rows satisfying the conjunction of
    the active predicates. *)
Lemma filter_df_as_filter (cfg : Config) (t : Table) :
  filter_df cfg t =
  List.filter (fun r => (negb (year_active cfg) || year_pred cfg r)
                        && (negb (condition_active cfg) || condition_pred cfg r)
                        && age_pred cfg r) t.
Proof.
  unfold filter_df, age_step, condition_step, year_step.
  destruct (year_active cfg), (condition_active cfg);
    rewrite ?filter_filter_and; apply filter_ext_eq; intros r; simpl;
    rewrite ?andb_true_r, ?andb_assoc; reflexivity.
Qed.

(** C4: applying the year, condition and age steps of the filter in any
    order (any permutation of the three steps) gives the same table as
    the order of the source. *)
Theorem filter_order_irrelevant (cfg : Config) (steps : list (Table -> Table)) (t : Table)
  (Hperm : Permutation (filter_steps cfg) steps) :
  compose_steps steps t = filter_df cfg t.
Proof.
  rewrite <- (compose_steps_perm _ _ Hperm (filter_steps_are_filters cfg) t).
  reflexivity.
Qed.

Lemma filter_order_irrelevant_witness :
  Permutation (filter_steps example_cfg)
    [age_step example_cfg; year_step example_cfg; condition_step example_cfg]
  /\ compose_steps [age_step example_cfg; year_step example_cfg; condition_step example_cfg]
       example_table = filter_df example_cfg example_table.
Proof.
  assert (Hp : Permutation (filter_steps example_cfg)
    [age_step example_cfg; year_step example_cfg; condition_step example_cfg]).
  { exact (Permutation_sym (Permutation_cons_append
             [year_step example_cfg; condition_step example_cfg] (age_step example_cfg))). }
  split; [exact Hp|].
  apply (filter_order_irrelevant example_cfg _ example_table Hp).
Defined.

(** C7: the filter keeps exactly, and in their order, the rows whose
    admission year is the selected one (unless "Semua Tahun" is chosen),
    whose condition is the selected one (unless "Semua Kondisi" is
    chosen) and whose age lies in the inclusive range; on the two-row
    example table with year 2022, all conditions and ages [0,100] it
    returns the first row only. *)
Theorem filter_df_conjunction (cfg : Config) (t : Table) :
  filter_df cfg t =
  List.filter (fun r => (negb (year_active cfg) || year_pred cfg r)
                        && (negb (condition_active cfg) || condition_pred cfg r)
                        && age_pred cfg r) t
  /\ (forall r, In r (filter_df cfg t) <->
        In r t
        /\ (year_filter cfg = OptStr year_all
            \/ exists d, date_of_admission r = Some d /\ year_filter cfg = OptNum (dt_year d))
        /\ (condition_filter cfg = condition_all \/ medical_condition r = condition_filter cfg)
        /\ (exists a, age r = Some a /\ fst (age_range cfg) <= a <= snd (age_range cfg)))
  /\ filter_df example_cfg example_table = [example_row 2022 "Diabetes" 30].
Proof.
  split; [apply filter_df_as_filter|split; [|reflexivity]].
  intros r. rewrite filter_df_as_filter, filter_In.
  unfold year_active, year_pred, year_eq, condition_active, condition_pred, age_pred.
  rewrite !andb_true_iff, !orb_true_iff, !negb_true_iff.
  destruct cfg as [yf cf [lo hi]]; simpl.
  split.
  - intros [Hin [[Hy Hc] Ha]]. split; [exact Hin|]. split; [|split].
    + destruct yf as [s|z].
      * destruct Hy as [Hy|Hy]; [|destruct (date_of_admission r); discriminate].
        left. apply negb_false_iff, String.eqb_eq in Hy. subst. reflexivity.
      * right. destruct Hy as [Hy|Hy]; [discriminate|].
        destruct (date_of_admission r) as [d|]; [|discriminate].
        apply Z.eqb_eq in Hy. exists d. subst. auto.
    + destruct Hc as [Hc|Hc].
      * left. destruct (String.eqb_spec cf condition_all); [assumption|discriminate].
      * right. apply String.eqb_eq. assumption.
    + destruct (age r) as [a|]; [|discriminate].
      apply andb_true_iff in Ha. destruct Ha as [H1 H2].
      apply Z.leb_le in H1, H2. exists a. auto.
  - intros [Hin [Hy [Hc Ha]]]. split; [exact Hin|]. split; [split|].
    + destruct Hy as [Hy|[d [Hd Hy]]].
      * subst. left. reflexivity.
      * subst. right. rewrite Hd. apply Z.eqb_refl.
    + destruct Hc as [Hc|Hc].
      * left. subst. reflexivity.
      * right. apply String.eqb_eq. assumption.
    + destruct Ha as [a [Ha [H1 H2]]]. rewrite Ha.
      apply andb_true_iff. split; apply Z.leb_le; assumption.
Qed.

(** C8: filtering an already filtered table with the same configuration
    returns the same table. *)
Theorem filter_df_idempotent (cfg : Config) (t : Table) :
  filter_df cfg (filter_df cfg t) = filter_df cfg t.
Proof.
  rewrite !filter_df_as_filter. apply filter_idem.
Qed.

(** C10: a row whose admission date did not parse (NaT) is dropped as
    soon as a year is selected, and under "Semua Tahun" it is kept exactly
    when the condition and age predicates keep it. *)
Theorem nat_admission_year_filter (cfg : Config) (t : Table) (r : Row)
  (Hnull : date_of_admission r = None) :
  (forall y, year_filter cfg = OptNum y -> ~ In r (filter_df cfg t))
  /\ (year_filter cfg = OptStr year_all ->
      (In r (filter_df cfg t) <->
       In r t /\ (negb (condition_active cfg) || condition_pred cfg r) && age_pred cfg r = true)).
Proof.
  split.
  - intros y Hy Hin. rewrite filter_df_as_filter, filter_In in Hin.
    destruct Hin as [_ Hk].
    unfold year_active, year_pred, year_eq in Hk. rewrite Hy, Hnull in Hk. discriminate.
  - intros Hy. rewrite filter_df_as_filter, filter_In.
    unfold year_active. rewrite Hy. simpl. reflexivity.
Qed.

Lemma nat_admission_year_filter_witness :
  let r := mkRow None None None (Some 40) "Asthma" "Normal" (Num 100) in
  ~ In r (filter_df example_cfg [r]).
Proof.
  intros r.
  apply (proj1 (nat_admission_year_filter example_cfg [r] r eq_refl) 2022).
  reflexivity.
Defined.

(** ** Loader *)

Lemma clip_lower0_num (q : Q) : clip_lower0 (Num q) = Num (Qmax q 0).
Proof.
  unfold clip_lower0, Qmax, GenericMinMax.gmax.
  destruct (Qle_bool 0 q) eqn:E.
  - apply Qle_bool_iff in E. destruct (q ?= 0)%Q eqn:C; try reflexivity.
    exfalso. rewrite <- Qlt_alt in C. apply (Qlt_not_le q 0); assumption.
  - destruct (q ?= 0)%Q eqn:C; try reflexivity.
    + apply Qeq_alt in C. exfalso.
      assert (Hle : (0 <= q)%Q) by (rewrite C; apply Qle_refl).
      apply Qle_bool_iff in Hle. congruence.
    + rewrite <- Qgt_alt in C. exfalso.
      assert (Hle : (0 <= q)%Q) by (apply Qlt_le_weak; assumption).
      apply Qle_bool_iff in Hle. congruence.
Qed.

Lemma load_rows_ok {F : Type} (parse_with : F -> string -> option Datetime) (fa fd : F)
  (csv : list RawRow) (t : Table) :
  load_rows parse_with fa fd csv = inr t ->
  Forall2 (fun raw row => load_row parse_with fa fd raw = inr row) csv t.
Proof.
  revert t. induction csv as [|raw rest IH]; intros t H; simpl in H.
  - injection H as <-. constructor.
  - destruct (load_row parse_with fa fd raw) as [e|row] eqn:E; [discriminate|].
    destruct (load_rows parse_with fa fd rest) as [e|t'] eqn:E'; [discriminate|].
    injection H as <-. constructor; [exact E|apply IH; reflexivity].
Qed.

Lemma load_rows_error {F : Type} (parse_with : F -> string -> option Datetime) (fa fd : F)
  (csv : list RawRow) :
  load_rows parse_with fa fd csv = inl OverflowError <->
  exists raw, In raw csv /\ load_row parse_with fa fd raw = inl OverflowError.
Proof.
  induction csv as [|raw rest IH]; simpl.
  - split; [discriminate|]. intros [raw [[] _]].
  - destruct (load_row parse_with fa fd raw) as [[]|row] eqn:E.
    + split; [intros _; exists raw; auto|reflexivity].
    + destruct (load_rows parse_with fa fd rest) as [[]|t'] eqn:E'.
      * split; [intros _|reflexivity].
        destruct (proj1 IH eq_refl) as [r [Hr Hl]]. exists r. auto.
      * split; [discriminate|]. intros [r [[<-|Hr] Hl]]; [congruence|].
        assert (Hc := proj2 IH (ex_intro _ r (conj Hr Hl))). discriminate.
Qed.

(** C5: when [load_data] returns, it has kept one row per CSV row; a
    numeric billing amount [b] has become [max(b, 0)], which is
    non-negative and is [b] itself when [b >= 0] (a missing amount stays
    NaN); -500 becomes 0. *)
Theorem load_data_billing_clip (DateFormat : Type) (guess_format : list string -> DateFormat)
  (parse_with : DateFormat -> string -> option Datetime) (csv : list RawRow) :
  (forall t, load_data guess_format parse_with csv = inr t ->
     Forall2 (fun raw row =>
                match raw_billing_amount raw with
                | Num b => billing_amount row = Num (Qmax b 0)
                           /\ (0 <= Qmax b 0)%Q
                           /\ ((0 <= b)%Q -> billing_amount row = Num b)
                | NaN => billing_amount row = NaN
                end)
       csv t)
  /\ (forall fa fd raw row, raw_billing_amount raw = Num (-500) ->
        load_row parse_with fa fd raw = inr row -> billing_amount row = Num 0).
Proof.
  assert (Hrow : forall fa fd raw row, load_row parse_with fa fd raw = inr row ->
                   billing_amount row = clip_lower0 (raw_billing_amount raw)).
  { intros fa fd raw row H. unfold load_row in H.
    destruct (timedelta_ns _ _); [discriminate|]. injection H as <-. reflexivity. }
  split.
  - intros t H. apply load_rows_ok in H.
    induction H as [|raw row csv' t' Hr _ IH]; constructor; [|exact IH].
    rewrite (Hrow _ _ _ _ Hr).
    destruct (raw_billing_amount raw) as [b|]; [|reflexivity].
    rewrite clip_lower0_num. split; [reflexivity|split].
    + apply Q.le_max_r.
    + intros Hb. rewrite <- clip_lower0_num. unfold clip_lower0.
      apply Qle_bool_iff in Hb. rewrite Hb. reflexivity.
  - intros fa fd raw row Hb H. rewrite (Hrow _ _ _ _ H), Hb. reflexivity.
Qed.

(** C6 (as stated: a stay length for every record whose two dates
    parse): the dates 1700-01-01 and 2000-01-01 both parse, but they lie
    more than 2^63 nanoseconds apart, and the subtraction of line 29
    raises [OverflowError], so [load_data] returns no table at all. *)
Lemma load_data_overflow_1700_2000 :
  to_datetime_cell iso_parse tt "1700-01-01" = Some (mkDatetime 1700 1 1 0)
  /\ to_datetime_cell iso_parse tt "2000-01-01" = Some (mkDatetime 2000 1 1 0)
  /\ load_data iso_guess iso_parse far_apart_csv = inl OverflowError.
Proof. split; [|split]; vm_compute; reflexivity. Qed.

(** C6 (amended): [load_data] raises [OverflowError] exactly when some
    row has two parsed dates further apart than the int64 range of
    nanoseconds (about 292 years).  Otherwise every row's
    [length_of_stay] is NaN exactly when one of its dates is NaT (each
    column parsed with the format inferred for it), or when the difference
    is the NaT pattern -2^63 ns; else it is the floor of the difference in
    days, which for two dates at midnight is the number of calendar days
    between them. *)
Theorem load_data_length_of_stay (DateFormat : Type) (guess_format : list string -> DateFormat)
  (parse_with : DateFormat -> string -> option Datetime) (csv : list RawRow) :
  let fa := guess_format (map raw_date_of_admission csv) in
  let fd := guess_format (map raw_discharge_date csv) in
  (load_data guess_format parse_with csv = inl OverflowError <->
   exists raw a d, In raw csv
     /\ to_datetime_cell parse_with fa (raw_date_of_admission raw) = Some a
     /\ to_datetime_cell parse_with fd (raw_discharge_date raw) = Some d
     /\ (to_epoch_ns d - to_epoch_ns a < int64_min \/ int64_max < to_epoch_ns d - to_epoch_ns a))
  /\ (forall t, load_data guess_format parse_with csv = inr t ->
       Forall2 (fun raw row =>
         date_of_admission row = to_datetime_cell parse_with fa (raw_date_of_admission raw)
         /\ discharge_date row = to_datetime_cell parse_with fd (raw_discharge_date raw)
         /\ match date_of_admission row, discharge_date row with
            | Some a, Some d =>
                length_of_stay row
                  = (if to_epoch_ns d - to_epoch_ns a =? int64_min then None
                     else Some ((to_epoch_ns d - to_epoch_ns a) / nanos_per_day))
                /\ (dt_nanos a = 0 -> dt_nanos d = 0 ->
                    length_of_stay row =
                    Some (days_from_civil (dt_year d) (dt_month d) (dt_day d)
                          - days_from_civil (dt_year a) (dt_month a) (dt_day a)))
            | _, _ => length_of_stay row = None
            end) csv t).
Proof.
  intros fa fd.
  assert (Hload : load_data guess_format parse_with csv = load_rows parse_with fa fd csv)
    by reflexivity.
  rewrite Hload. clearbody fa fd. clear Hload. split.
  - rewrite load_rows_error. split.
    + intros [raw [Hr Hl]]. unfold load_row, timedelta_ns in Hl.
      destruct (to_datetime_cell parse_with fa (raw_date_of_admission raw)) as [a|] eqn:Ea,
               (to_datetime_cell parse_with fd (raw_discharge_date raw)) as [d|] eqn:Ed;
        try discriminate.
      exists raw, a, d. repeat split; auto.
      destruct (Z.ltb_spec (to_epoch_ns d - to_epoch_ns a) int64_min); [left; exact H|].
      destruct (Z.ltb_spec int64_max (to_epoch_ns d - to_epoch_ns a)); [right; exact H0|].
      simpl in Hl. destruct (_ =? _); discriminate.
    + intros [raw [a [d [Hr [Ea [Ed Hout]]]]]]. exists raw. split; [exact Hr|].
      unfold load_row, timedelta_ns. rewrite Ea, Ed.
      destruct Hout as [Hout|Hout].
      * apply Z.ltb_lt in Hout. rewrite Hout. reflexivity.
      * apply Z.ltb_lt in Hout. rewrite Hout, orb_true_r. reflexivity.
  - intros t H. apply load_rows_ok in H.
    induction H as [|raw row csv' t' Hr _ IH]; constructor; [|exact IH].
    unfold load_row, timedelta_ns in Hr.
    destruct (to_datetime_cell parse_with fa (raw_date_of_admission raw)) as [a|] eqn:Ea,
             (to_datetime_cell parse_with fd (raw_discharge_date raw)) as [d|] eqn:Ed;
      [|injection Hr as <-; repeat split; reflexivity..].
    destruct ((to_epoch_ns d - to_epoch_ns a <? int64_min)
              || (int64_max <? to_epoch_ns d - to_epoch_ns a)); [discriminate|].
    assert (Hmid : dt_nanos a = 0 -> dt_nanos d = 0 ->
              to_epoch_ns d - to_epoch_ns a
              = (days_from_civil (dt_year d) (dt_month d) (dt_day d)
                 - days_from_civil (dt_year a) (dt_month a) (dt_day a)) * nanos_per_day).
    { intros Ha Hd. unfold to_epoch_ns. rewrite Ha, Hd. ring. }
    destruct (Z.eqb_spec (to_epoch_ns d - to_epoch_ns a) int64_min) as [Hmin|Hmin];
      injection Hr as <-; simpl; (split; [reflexivity|split; [reflexivity|]]);
      [rewrite (proj2 (Z.eqb_eq _ _) Hmin)|rewrite (proj2 (Z.eqb_neq _ _) Hmin)];
      (split; [reflexivity|]); intros Ha Hd; specialize (Hmid Ha Hd).
    + exfalso. rewrite Hmid in Hmin.
      assert (Hm : int64_min mod nanos_per_day = 0)
        by (rewrite <- Hmin; apply Z.mod_mul; unfold nanos_per_day; lia).
      vm_compute in Hm. discriminate.
    + f_equal. rewrite Hmid. apply Z.div_mul. unfold nanos_per_day. lia.
Qed.

(** ** Quick stats on an empty view *)

(** C1 (as stated: an explicit "no data" value instead of NaN): with the
    year 2024 selected, [example_table] filters to no row; the average
    billing is then NaN and is displayed as "$nan". *)
Lemma empty_view_avg_bill_is_nan :
  filter_df empty_cfg example_table = []
  /\ avg_bill (filter_df empty_cfg example_table) = NaN
  /\ metric_value (bill_metric (filter_df empty_cfg example_table)) = "$nan"%string.
Proof. repeat split. Qed.

(** C1 (amended): when the filtered view is empty the three averages are
    the NaN of [Series.mean()]; they are displayed as "nan hari", "$nan"
    and "nan%" with delta colour "inverse" (every comparison with NaN is
    false), and no exception is raised. *)
Theorem empty_view_metrics_nan (cfg : Config) (t : Table) (Hempty : filter_df cfg t = []) :
  avg_stay (filter_df cfg t) = NaN
  /\ avg_bill (filter_df cfg t) = NaN
  /\ recovery_rate (filter_df cfg t) = NaN
  /\ stay_metric (filter_df cfg t) = mkMetric "Rata-rata Rawat" "nan hari" "inverse"
  /\ bill_metric (filter_df cfg t) = mkMetric "Rata-rata Biaya" "$nan" "inverse"
  /\ recovery_metric (filter_df cfg t) = mkMetric "Tingkat Pemulihan" "nan%" "inverse".
Proof. rewrite Hempty. repeat split. Qed.

Lemma empty_view_metrics_nan_witness :
  filter_df empty_cfg example_table = []
  /\ bill_metric (filter_df empty_cfg example_table) = mkMetric "Rata-rata Biaya" "$nan" "inverse".
Proof.
  assert (He : filter_df empty_cfg example_table = []) by reflexivity.
  split; [exact He|].
  exact (proj1 (proj2 (proj2 (proj2 (proj2 (empty_view_metrics_nan empty_cfg example_table He)))))).
Defined.

(** ** Bucketing with [pd.cut] *)

Lemma sorted_monotonic (bins : list Z) :
  Sorted Z.lt bins -> is_monotonic_increasing bins = true.
Proof.
  induction 1 as [|b rest Hs IH Hhd]; [reflexivity|].
  destruct rest as [|c rest']; [reflexivity|].
  inversion Hhd; subst. simpl in *. rewrite IH, andb_true_r.
  apply Z.leb_le. lia.
Qed.

Lemma sorted_nodupb (bins : list Z) :
  StronglySorted Z.lt bins -> nodupb Z.eqb bins = true.
Proof.
  induction 1 as [|b rest Hs IH Hall]; [reflexivity|].
  simpl. rewrite IH, andb_true_r. apply negb_true_iff.
  apply Bool.not_true_iff_false. intros Hex.
  apply existsb_exists in Hex. destruct Hex as [c [Hc Heq]].
  apply Z.eqb_eq in Heq. subst c.
  rewrite List.Forall_forall in Hall. specialize (Hall b Hc). lia.
Qed.

Lemma nodup_nodupb (labels : list string) :
  List.NoDup labels -> nodupb String.eqb labels = true.
Proof.
  induction 1 as [|l rest Hnin Hnd IH]; [reflexivity|].
  simpl. rewrite IH, andb_true_r. apply negb_true_iff.
  apply Bool.not_true_iff_false. intros Hex.
  apply existsb_exists in Hex. destruct Hex as [c [Hc Heq]].
  apply String.eqb_eq in Heq. subst c. contradiction.
Qed.

Lemma searchsorted_le (bins : list Z) (v : Z) :
  (searchsorted_left bins v <= length bins)%nat.
Proof.
  induction bins as [|b rest IH]; simpl; [lia|].
  destruct (b <? v); lia.
Qed.

(** On strictly increasing edges, [searchsorted] returns [i+1] exactly
    for the values of the interval [(bins[i], bins[i+1]]]. *)
Lemma searchsorted_interval (bins : list Z) (v : Z) (i : nat) :
  StronglySorted Z.lt bins -> (S i < length bins)%nat ->
  (searchsorted_left bins v = S i <-> nth i bins 0 < v <= nth (S i) bins 0).
Proof.
  revert i. induction bins as [|b rest IH]; intros i Hs Hlen; simpl in Hlen; [lia|].
  inversion Hs as [|? ? Hs' Hall]; subst. simpl.
  destruct i as [|j].
  - destruct rest as [|c rest']; simpl in Hlen; [lia|]. simpl.
    destruct (Z.ltb_spec b v), (Z.ltb_spec c v);
      split; intros Hx; try discriminate; try lia; reflexivity.
  - assert (Hj : (S j < length rest)%nat) by lia.
    destruct (Z.ltb_spec b v).
    + rewrite <- (IH j Hs' Hj). split; intros Hx; [injection Hx; auto|rewrite Hx; reflexivity].
    + split; intros Hx; [discriminate|]. exfalso.
      rewrite List.Forall_forall in Hall.
      assert (Hb : b < nth j rest 0) by (apply Hall, nth_In; lia).
      lia.
Qed.

Lemma cut_value_some_iff (bins : list Z) (labels : list string) (v : Z) (i : nat) :
  StronglySorted Z.lt bins -> List.NoDup labels -> length labels = (length bins - 1)%nat ->
  (i < length labels)%nat ->
  (cut_value bins labels (Some v) = Some (nth i labels ""%string)
   <-> nth i bins 0 < v <= nth (S i) bins 0).
Proof.
  intros Hs Hnd Hlen Hi. unfold cut_value.
  pose proof (searchsorted_le bins v) as Hle.
  destruct (searchsorted_left bins v) as [|k] eqn:Ek.
  - simpl. split; [discriminate|]. intros Hint.
    apply (searchsorted_interval bins v i Hs) in Hint; [congruence|lia].
  - change (Nat.eqb (S k) 0) with false. rewrite orb_false_l.
    replace (S k - 1)%nat with k by lia.
    destruct (Nat.eqb_spec (S k) (length bins)) as [E1|E1].
    + split; [discriminate|]. intros Hint.
      apply (searchsorted_interval bins v i Hs) in Hint; [|lia]. lia.
    + split.
    * intros Hc.
      rewrite (@nth_error_nth' string labels k ""%string) in Hc by lia.
      injection Hc as Hc.
      assert (k = i) by (apply (proj1 (NoDup_nth labels ""%string) Hnd); lia || assumption).
      subst k. apply (searchsorted_interval bins v i Hs); [lia|assumption].
    * intros Hint. apply (searchsorted_interval bins v i Hs) in Hint; [|lia].
      rewrite Ek in Hint. injection Hint as ->.
      apply nth_error_nth'. assumption.
Qed.

Lemma cut_value_none_iff (bins : list Z) (labels : list string) (v : Z) :
  StronglySorted Z.lt bins -> List.NoDup labels -> length labels = (length bins - 1)%nat ->
  (cut_value bins labels (Some v) = None
   <-> ~ exists i, (i < length labels)%nat /\ nth i bins 0 < v <= nth (S i) bins 0).
Proof.
  intros Hs Hnd Hlen. split.
  - intros Hn [i [Hi Hint]].
    apply (cut_value_some_iff bins labels v i Hs Hnd Hlen Hi) in Hint. congruence.
  - intros Hno. destruct (cut_value bins labels (Some v)) as [l|] eqn:Ec; [|reflexivity].
    exfalso. apply Hno. unfold cut_value in Ec.
    pose proof (searchsorted_le bins v) as Hle.
    destruct (searchsorted_left bins v) as [|k] eqn:Ek; [discriminate|].
    destruct (Nat.eqb_spec (S k) (length bins)) as [E1|E1]; [discriminate|].
    simpl in Ec. rewrite Nat.sub_0_r in Ec.
    assert (Hk : (k < length labels)%nat) by lia.
    exists k. split; [exact Hk|].
    apply (searchsorted_interval bins v k Hs); [lia|exact Ek].
Qed.

Lemma searchsorted_all_below (bins : list Z) (v : Z) :
  searchsorted_left bins v = length bins -> forall b, In b bins -> b < v.
Proof.
  induction bins as [|b0 rest IH]; simpl; [intros _ b []|].
  destruct (Z.ltb_spec b0 v) as [Hlt|Hge]; [|discriminate].
  intros H b [<-|Hb]; [exact Hlt|]. apply IH; [injection H as H; exact H|exact Hb].
Qed.

(** C2 (as stated: intervals closed on the left, open on the right): the
    code's bins put age 18 in the first group, "Anak (0-18)", not in the
    second one the stated rule gives it ([18 <= 18 < 35]). *)
Lemma cut_age_18_first_group :
  nth 1 age_bins 0 <= 18 < nth 2 age_bins 0
  /\ cut_value age_bins age_labels (Some 18) = Some (nth 0 age_labels ""%string)
  /\ cut_value age_bins age_labels (Some 18) <> Some (nth 1 age_labels ""%string).
Proof. split; [|split]; [simpl; lia|reflexivity|cbv; congruence]. Qed.

(** C2 (amended): for strictly increasing edges [b0 < ... < bN] and [N]
    distinct labels, [pd.cut] succeeds; a value [v] with [b0 < v <= bN]
    gets exactly one label, [Li] exactly when [b(i-1) < v <= b(i)]
    (intervals closed on the right, as pandas' default [right=True]: an
    inner edge belongs to the lower interval); a missing value or a value
    below [b0] gets none.  On the code's age bins, 10, 25, 40 and 90 get
    the first, second, third and fifth labels. *)
Theorem pd_cut_right_closed (bins : list Z) (labels : list string)
  (Hsorted : Sorted Z.lt bins) (Hnodup : List.NoDup labels)
  (Hlen : S (length labels) = length bins) :
  (forall values, pd_cut bins labels values = inr (map (cut_value bins labels) values))
  /\ (forall v, nth 0 bins 0 < v <= nth (length labels) bins 0 ->
        exists i, (i < length labels)%nat
                  /\ cut_value bins labels (Some v) = Some (nth i labels ""%string))
  /\ (forall v i, nth 0 bins 0 < v <= nth (length labels) bins 0 -> (i < length labels)%nat ->
        (cut_value bins labels (Some v) = Some (nth i labels ""%string)
         <-> nth i bins 0 < v <= nth (S i) bins 0))
  /\ (forall v, v < nth 0 bins 0 -> cut_value bins labels (Some v) = None)
  /\ cut_value bins labels None = None
  /\ pd_cut age_bins age_labels [Some 10; Some 25; Some 40; Some 90]
     = inr [Some "Anak (0-18)"; Some "Dewasa Muda (19-35)"; Some "Dewasa (36-50)";
            Some "Manula (65+)"]%string.
Proof.
  assert (Hs : StronglySorted Z.lt bins).
  { apply Sorted_StronglySorted; [intros x y z; apply Z.lt_trans|exact Hsorted]. }
  assert (Hlen' : length labels = (length bins - 1)%nat) by lia.
  split; [|split; [|split; [|split; [|split]]]].
  - intros values. unfold pd_cut.
    rewrite (sorted_monotonic bins Hsorted), (sorted_nodupb bins Hs),
      (nodup_nodupb labels Hnodup), Hlen, Nat.eqb_refl. reflexivity.
  - intros v Hv. unfold cut_value.
    pose proof (searchsorted_le bins v) as Hle.
    destruct (searchsorted_left bins v) as [|k] eqn:Ek.
    + exfalso. destruct bins as [|b0 rest]; simpl in Hlen; [discriminate|].
      simpl in Ek, Hv. destruct (Z.ltb_spec b0 v); [discriminate|lia].
    + change (Nat.eqb (S k) 0) with false. rewrite orb_false_l.
      destruct (Nat.eqb_spec (S k) (length bins)) as [E1|E1].
      * exfalso.
        assert (Hb : nth (length labels) bins 0 < v).
        { apply (searchsorted_all_below bins v); [congruence|apply nth_In; lia]. }
        lia.
      * exists k. split; [lia|]. replace (S k - 1)%nat with k by lia.
        apply nth_error_nth'. lia.
  - intros v i _ Hi. apply cut_value_some_iff; assumption.
  - intros v Hv. destruct bins as [|b0 rest]; simpl in Hlen; [discriminate|].
    simpl in Hv |- *. destruct (Z.ltb_spec b0 v); [lia|reflexivity].
  - reflexivity.
  - reflexivity.
Qed.

Lemma pd_cut_right_closed_witness :
  pd_cut age_bins age_labels [Some 18; Some 19]
  = inr [cut_value age_bins age_labels (Some 18); cut_value age_bins age_labels (Some 19)].
Proof.
  assert (Hs : Sorted Z.lt age_bins) by (repeat constructor).
  assert (Hn : List.NoDup age_labels).
  { repeat constructor; simpl; intuition discriminate. }
  exact (proj1 (pd_cut_right_closed age_bins age_labels Hs Hn eq_refl) [Some 18; Some 19]).
Defined.

Lemma sum_map_add {A : Type} (f g : A -> nat) (l : list A) :
  list_sum (map (fun x => (f x + g x)%nat) l) = (list_sum (map f l) + list_sum (map g l))%nat.
Proof. induction l as [|x l IH]; simpl; [reflexivity|]. rewrite IH. lia. Qed.

Lemma indicator_sum_absent (labels : list string) (x : string) :
  ~ In x labels -> list_sum (map (fun l => if String.eqb l x then 1%nat else 0%nat) labels) = 0%nat.
Proof.
  induction labels as [|l rest IH]; intros Hx; simpl; [reflexivity|].
  destruct (String.eqb_spec l x) as [->|_]; [exfalso; apply Hx; left; reflexivity|].
  apply IH. intros H. apply Hx. right. exact H.
Qed.

Lemma indicator_sum_present (labels : list string) (x : string) :
  List.NoDup labels -> In x labels ->
  list_sum (map (fun l => if String.eqb l x then 1%nat else 0%nat) labels) = 1%nat.
Proof.
  induction 1 as [|l rest Hnin Hnd IH]; intros Hx; [destruct Hx|]. simpl.
  destruct (String.eqb_spec l x) as [->|Hne].
  - rewrite indicator_sum_absent by exact Hnin. reflexivity.
  - destruct Hx as [Hx|Hx]; [contradiction|]. apply IH, Hx.
Qed.

Lemma label_count_cons (l : string) (c : option string) (col : list (option string)) :
  label_count l (c :: col)
  = ((match c with Some l' => if String.eqb l l' then 1 else 0 | None => 0 end)
     + label_count l col)%nat.
Proof.
  unfold label_count. destruct c as [l'|]; simpl; [|reflexivity].
  destruct (String.eqb l l'); reflexivity.
Qed.

(** The counts of [value_counts] and the missing cells partition the
    column: every labelled cell is counted once, under its own label. *)
Lemma value_counts_partition (labels : list string) (col : list (option string)) :
  List.NoDup labels -> (forall l, In (Some l) col -> In l labels) ->
  (list_sum (map fst (value_counts labels col))
   + length (List.filter (fun c => match c with None => true | Some _ => false end) col))%nat
  = length col.
Proof.
  intros Hnd. unfold value_counts. rewrite map_map. simpl.
  induction col as [|c col IH]; intros Hin.
  - simpl. clear Hnd Hin. induction labels as [|l rest IHl]; simpl in *; lia.
  - erewrite map_ext by (intros l; apply label_count_cons).
    rewrite sum_map_add.
    assert (IH' := IH (fun l H => Hin l (or_intror H))).
    destruct c as [x|]; simpl.
    + rewrite indicator_sum_present by (assumption || (apply Hin; left; reflexivity)).
      lia.
    + assert (Hz : list_sum (map (fun _ : string => 0%nat) labels) = 0%nat)
        by (clear; induction labels; simpl; auto).
      rewrite Hz. lia.
Qed.

Lemma cut_age_none_iff (a : Z) :
  cut_value age_bins age_labels (Some a) = None <-> a <= 0 \/ 100 < a.
Proof.
  unfold cut_value, age_bins. simpl.
  repeat match goal with |- context [?x <? ?y] => destruct (Z.ltb_spec x y) end;
    simpl; split; intros Hx; try lia; try discriminate; reflexivity.
Qed.

Lemma cut_age_labels (v : option Z) (l : string) :
  cut_value age_bins age_labels v = Some l -> In l age_labels.
Proof.
  unfold cut_value. destruct v as [x|]; [|discriminate].
  destruct (_ || _)%bool; [discriminate|]. apply nth_error_In.
Qed.

(** C3 (as stated: unbucketed values are never silently dropped): in a
    table whose ages range over [-1, 90], with the slider moved to that
    full range, the row of age -1 passes the filter, [pd.cut] leaves its
    cell missing, and [age_counts] counts two patients for a view of
    three. *)
Lemma negative_age_dropped_from_age_counts :
  slider_bounds negative_age_table = Some (-1, 90)
  /\ filter_df full_range_cfg negative_age_table = negative_age_table
  /\ kelompok_usia negative_age_table
     = inr [None; Some "Dewasa (36-50)"%string; Some "Manula (65+)"%string]
  /\ list_sum (map fst (value_counts age_labels
                          [None; Some "Dewasa (36-50)"%string; Some "Manula (65+)"%string]))
     = 2%nat
  /\ length negative_age_table = 3%nat.
Proof. repeat split. Qed.

(** C3 (amended): on any table the age bucketing does not fail and gives
    one cell per row, that cell being exactly one of the five labels or
    missing (unbucketed); every age from 1 to 100 gets a label, a missing
    or negative age none; [value_counts] (line 307) counts every labelled
    cell once and leaves the unbucketed cells out of [age_counts]. *)
Theorem kelompok_usia_one_cell_per_row (t : Table) :
  kelompok_usia t = inr (map (cut_value age_bins age_labels) (map age t))
  /\ length (map (cut_value age_bins age_labels) (map age t)) = length t
  /\ (forall r, age r = None -> cut_value age_bins age_labels (age r) = None)
  /\ (forall r a, age r = Some a -> a < 0 -> cut_value age_bins age_labels (age r) = None)
  /\ (forall r a, age r = Some a -> 0 < a <= 100 ->
        exists l, cut_value age_bins age_labels (age r) = Some l /\ In l age_labels)
  /\ (forall c, In c (map (cut_value age_bins age_labels) (map age t)) ->
        c = None \/ exists l, c = Some l /\ In l age_labels)
  /\ (list_sum (map fst (value_counts age_labels (map (cut_value age_bins age_labels) (map age t))))
      + length (List.filter (fun c => match c with None => true | Some _ => false end)
                  (map (cut_value age_bins age_labels) (map age t))))%nat
     = length t.
Proof.
  assert (Hnd : List.NoDup age_labels).
  { repeat constructor; simpl; intuition discriminate. }
  split; [reflexivity|split; [|split; [|split; [|split; [|split]]]]].
  - rewrite !length_map. reflexivity.
  - intros r ->. reflexivity.
  - intros r a -> Ha. apply cut_age_none_iff. lia.
  - intros r a -> Ha.
    destruct (cut_value age_bins age_labels (Some a)) as [l|] eqn:E.
    + exists l. split; [reflexivity|exact (cut_age_labels _ l E)].
    + apply cut_age_none_iff in E. lia.
  - intros c Hc. destruct c as [l|]; [right|left; reflexivity].
    exists l. split; [reflexivity|].
    apply in_map_iff in Hc. destruct Hc as [v [Hv _]]. exact (cut_age_labels v l Hv).
  - rewrite value_counts_partition.
    + rewrite !length_map. reflexivity.
    + exact Hnd.
    + intros l Hl. apply in_map_iff in Hl. destruct Hl as [v [Hv _]].
      exact (cut_age_labels v l Hv).
Qed.

(** ** The cached table is never written *)

Lemma kelompok_usia_ok (t : Table) :
  kelompok_usia t = inr (map (cut_value age_bins age_labels) (map age t)).
Proof. reflexivity. Qed.

(** C9: running the demographics page (the copy, the three filters and
    the [kelompok_usia] assignment) on the heap where [df] is the object
    [l0] leaves that object as it was; [filtered_df] names a different
    object, holding the filtered rows and the new column. *)
Theorem demografi_keeps_df (cfg : Config) (h : Store.Heap) (l0 : nat) (fr : Store.Frame)
  (Hdf : Store.objects h !! l0 = Some fr) (Hfresh : (l0 < Store.next_loc h)%nat) :
  Store.objects (snd (Store.demografi_script cfg l0 h)) !! l0 = Some fr
  /\ exists l, fst (Store.demografi_script cfg l0 h) = inr l /\ l <> l0
     /\ exists col, Store.objects (snd (Store.demografi_script cfg l0 h)) !! l
                    = Some (Store.mkFrame (filter_df cfg (Store.fr_rows fr)) (Some col)).
Proof.
  destruct h as [objs n]. simpl in *.
  unfold Store.demografi_script, Store.apply_filters, Store.df_copy, Store.getitem_mask,
    Store.assign_kelompok_usia, Store.bind, Store.read, Store.alloc, Store.write, Store.ret.
  simpl. rewrite Hdf.
  unfold filter_df, year_step, condition_step, age_step.
  destruct (year_active cfg), (condition_active cfg); simpl;
    repeat (rewrite lookup_insert_eq; simpl);
    (split; [rewrite !lookup_insert_ne by lia; exact Hdf|]);
    (eexists; split; [reflexivity|split; [lia|]]);
    eexists; apply lookup_insert_eq.
Qed.

Lemma demografi_keeps_df_witness :
  let fr := Store.mkFrame example_table None in
  Store.objects (snd (Store.demografi_script example_cfg 0
                        (Store.mkHeap (<[0%nat := fr]> ∅) 1))) !! 0%nat = Some fr.
Proof.
  intros fr.
  apply (proj1 (demografi_keeps_df example_cfg (Store.mkHeap (<[0%nat := fr]> ∅) 1) 0 fr
                  ltac:(apply lookup_insert_eq) ltac:(simpl; lia))).
Defined.

(** * Properties of the rest of the script *)

(** ** Column names *)

Ltac ascii_cases := intros c; destruct c as [[] [] [] [] [] [] [] []].

Definition normalize_char (c : ascii) : ascii := replace_space (lower_char c).

Lemma normalize_char_idem : forall c, normalize_char (normalize_char c) = normalize_char c.
Proof. ascii_cases; reflexivity. Qed.

Lemma normalize_char_nonspace : forall c, is_space c = false -> is_space (normalize_char c) = false.
Proof. ascii_cases; intros H; vm_compute in H |- *; congruence. Qed.

Lemma normalize_char_shape : forall c,
  normalize_char c <> " "%char
  /\ (Nat.leb 65 (nat_of_ascii (normalize_char c)) && Nat.leb (nat_of_ascii (normalize_char c)) 90)%bool
     = false.
Proof. ascii_cases; split; (discriminate || reflexivity). Qed.

Definition trimmed (cs : list ascii) : Prop :=
  (forall c, hd_error cs = Some c -> is_space c = false)
  /\ (forall c, hd_error (rev cs) = Some c -> is_space c = false).

Lemma lstrip_head (cs : list ascii) (c : ascii) :
  hd_error (lstrip cs) = Some c -> is_space c = false.
Proof.
  induction cs as [|x rest IH]; simpl; [discriminate|].
  destruct (is_space x) eqn:E; [exact IH|]. simpl. intros H. injection H as <-. exact E.
Qed.

Lemma lstrip_id (cs : list ascii) :
  (forall c, hd_error cs = Some c -> is_space c = false) -> lstrip cs = cs.
Proof.
  destruct cs as [|x rest]; simpl; [reflexivity|]. intros H.
  rewrite (H x eq_refl). reflexivity.
Qed.

Lemma lstrip_keeps_last (ys : list ascii) (c : ascii) :
  is_space c = false -> exists zs, lstrip (ys ++ [c]) = zs ++ [c].
Proof.
  intros Hc. induction ys as [|y ys IH]; simpl.
  - rewrite Hc. exists []. reflexivity.
  - destruct (is_space y); [exact IH|]. exists (y :: ys). reflexivity.
Qed.

Lemma strip_trimmed (cs : list ascii) : trimmed (strip cs).
Proof.
  unfold strip. split.
  - intros c. destruct (lstrip cs) as [|x rest] eqn:E; [simpl; discriminate|].
    assert (Hx : is_space x = false) by (apply (lstrip_head cs); rewrite E; reflexivity).
    simpl. destruct (lstrip_keeps_last (rev rest) x Hx) as [zs Hzs].
    rewrite Hzs, rev_app_distr. simpl. intros H. injection H as <-. exact Hx.
  - rewrite rev_involutive. apply lstrip_head.
Qed.

Lemma strip_id (cs : list ascii) : trimmed cs -> strip cs = cs.
Proof.
  intros [Hh Hl]. unfold strip. rewrite (lstrip_id cs Hh), (lstrip_id (rev cs) Hl).
  apply rev_involutive.
Qed.

Lemma trimmed_map (cs : list ascii) : trimmed cs -> trimmed (map normalize_char cs).
Proof.
  intros [Hh Hl]. split.
  - destruct cs as [|x rest]; simpl; [discriminate|]. intros c H. injection H as <-.
    apply normalize_char_nonspace, Hh. reflexivity.
  - rewrite <- map_rev. destruct (rev cs) as [|x rest]; simpl; [discriminate|].
    intros c H. injection H as <-. apply normalize_char_nonspace, Hl. reflexivity.
Qed.

Lemma normalize_column_chars (s : string) :
  list_ascii_of_string (normalize_column s)
  = map normalize_char (strip (list_ascii_of_string s)).
Proof.
  unfold normalize_column. rewrite list_ascii_of_string_of_list_ascii, map_map. reflexivity.
Qed.

(** Normalising an already normalised header changes nothing; a normalised
    header has no space, no upper-case ASCII letter and no white space at
    either end. *)
Theorem normalize_column_idempotent (s : string) :
  normalize_column (normalize_column s) = normalize_column s
  /\ (forall c, In c (list_ascii_of_string (normalize_column s)) ->
        c <> " "%char /\ (Nat.leb 65 (nat_of_ascii c) && Nat.leb (nat_of_ascii c) 90)%bool = false)
  /\ trimmed (list_ascii_of_string (normalize_column s)).
Proof.
  assert (Ht : trimmed (list_ascii_of_string (normalize_column s))).
  { rewrite normalize_column_chars. apply trimmed_map, strip_trimmed. }
  split; [|split; [|exact Ht]].
  - rewrite <- (string_of_list_ascii_of_string (normalize_column s)) at 2.
    unfold normalize_column at 1. rewrite map_map.
    rewrite (strip_id _ Ht), normalize_column_chars, map_map.
    rewrite (map_ext _ _ normalize_char_idem). reflexivity.
  - intros c Hc. rewrite normalize_column_chars in Hc.
    apply in_map_iff in Hc. destruct Hc as [x [<- _]]. apply normalize_char_shape.
Qed.

(** ** Selectbox options *)

Section Unique.
Context {A : Type} (eqb : A -> A -> bool).
Hypothesis eqb_iff : forall x y, eqb x y = true <-> x = y.

Lemma existsb_eqb_In (x : A) (l : list A) : existsb (eqb x) l = true <-> In x l.
Proof.
  rewrite existsb_exists. split.
  - intros [y [Hy Hxy]]. apply eqb_iff in Hxy. subst. exact Hy.
  - intros Hx. exists x. split; [exact Hx|]. apply eqb_iff. reflexivity.
Qed.

Lemma In_unique_aux (x : A) (seen l : list A) :
  In x (unique_aux eqb seen l) <-> In x l /\ ~ In x seen.
Proof.
  revert seen. induction l as [|y rest IH]; intros seen; simpl; [tauto|].
  destruct (existsb (eqb y) seen) eqn:E.
  - apply existsb_eqb_In in E. rewrite IH. split.
    + tauto.
    + intros [[<-|Hr] Hs]; [contradiction|tauto].
  - assert (Hy : ~ In y seen) by (intros H; apply existsb_eqb_In in H; congruence).
    simpl. rewrite IH. simpl. split.
    + intros [<-|[Hr Hs]]; [tauto|]. split; [right; exact Hr|tauto].
    + intros [[<-|Hr] Hs]; [left; reflexivity|].
      destruct (eqb y x) eqn:Eyx; [apply eqb_iff in Eyx; left; exact Eyx|].
      right. split; [exact Hr|]. intros [Hxy|Hxs]; [|contradiction].
      subst. rewrite (proj2 (eqb_iff x x) eq_refl) in Eyx. discriminate.
Qed.

Lemma NoDup_unique_aux (seen l : list A) : List.NoDup (unique_aux eqb seen l).
Proof.
  revert seen. induction l as [|y rest IH]; intros seen; simpl; [constructor|].
  destruct (existsb (eqb y) seen); [apply IH|].
  constructor; [|apply IH]. rewrite In_unique_aux. simpl. tauto.
Qed.

End Unique.

Lemma In_insert_sorted {A : Type} (leb : A -> A -> bool) (x y : A) (l : list A) :
  In x (insert_sorted leb y l) <-> x = y \/ In x l.
Proof.
  induction l as [|z rest IH]; simpl; [intuition congruence|].
  destruct (leb y z); simpl; [intuition congruence|]. rewrite IH. intuition congruence.
Qed.

Lemma In_py_sorted {A : Type} (leb : A -> A -> bool) (x : A) (l : list A) :
  In x (py_sorted leb l) <-> In x l.
Proof.
  induction l as [|y rest IH]; simpl; [tauto|].
  rewrite In_insert_sorted, IH. split; intros [H|H]; auto.
Qed.

Lemma Permutation_insert_sorted {A : Type} (leb : A -> A -> bool) (x : A) (l : list A) :
  Permutation (insert_sorted leb x l) (x :: l).
Proof.
  induction l as [|y rest IH]; simpl; [reflexivity|].
  destruct (leb x y); [reflexivity|].
  rewrite IH. apply perm_swap.
Qed.

Lemma Permutation_py_sorted {A : Type} (leb : A -> A -> bool) (l : list A) :
  Permutation (py_sorted leb l) l.
Proof.
  induction l as [|y rest IH]; simpl; [reflexivity|].
  rewrite Permutation_insert_sorted, IH. reflexivity.
Qed.

Lemma HdRel_insert_sorted (a x : Z) (l : list Z) :
  a <= x -> HdRel Z.le a l -> HdRel Z.le a (insert_sorted Z.leb x l).
Proof.
  intros Hax Hl. destruct l as [|z rest]; simpl.
  - constructor. exact Hax.
  - inversion Hl; subst. destruct (x <=? z); constructor; assumption.
Qed.

Lemma Sorted_insert_sorted (x : Z) (l : list Z) :
  Sorted Z.le l -> Sorted Z.le (insert_sorted Z.leb x l).
Proof.
  induction l as [|z rest IH]; intros Hs; simpl.
  - repeat constructor.
  - destruct (Z.leb_spec x z).
    + constructor; [exact Hs|constructor; assumption].
    + inversion Hs; subst. constructor; [apply IH; assumption|].
      apply HdRel_insert_sorted; [lia|assumption].
Qed.

Lemma Sorted_py_sorted (l : list Z) : Sorted Z.le (py_sorted Z.leb l).
Proof.
  induction l as [|y rest IH]; simpl; [constructor|]. apply Sorted_insert_sorted, IH.
Qed.

Lemma In_year_values (t : Table) (y : Z) :
  In y (year_values t) <-> exists r d, In r t /\ date_of_admission r = Some d /\ dt_year d = y.
Proof.
  unfold year_values. rewrite in_flat_map. split.
  - intros [r [Hr Hy]]. destruct (date_of_admission r) as [d|] eqn:E; [|destruct Hy].
    destruct Hy as [<-|[]]. exists r, d. auto.
  - intros [r [d [Hr [Hd <-]]]]. exists r. split; [exact Hr|]. rewrite Hd. left. reflexivity.
Qed.

(** The year selectbox offers "Semua Tahun" and then, strictly
    increasing, exactly the admission years present in the table; each
    offered year keeps at least one row in the year step. *)
Theorem year_options_spec (t : Table) :
  hd_error (year_options t) = Some (OptStr year_all)
  /\ (forall s, In (OptStr s) (year_options t) -> s = year_all)
  /\ (forall y, In (OptNum y) (year_options t)
               <-> exists r d, In r t /\ date_of_admission r = Some d /\ dt_year d = y)
  /\ StronglySorted Z.lt (py_sorted Z.leb (py_unique Z.eqb (year_values t)))
  /\ (forall y cfg, In (OptNum y) (year_options t) -> year_filter cfg = OptNum y ->
        year_step cfg t <> []).
Proof.
  assert (Hin : forall y, In (OptNum y) (year_options t)
               <-> exists r d, In r t /\ date_of_admission r = Some d /\ dt_year d = y).
  { intros y. unfold year_options. simpl. rewrite in_map_iff. split.
    - intros [H|[z [Hz Hin]]]; [discriminate|]. injection Hz as ->.
      apply In_py_sorted, (In_unique_aux Z.eqb Z.eqb_eq) in Hin.
      apply In_year_values, Hin.
    - intros H. right. exists y. split; [reflexivity|].
      apply In_py_sorted, (In_unique_aux Z.eqb Z.eqb_eq). split; [|intros []].
      apply In_year_values, H. }
  split; [reflexivity|split; [|split; [exact Hin|split]]].
  - unfold year_options. simpl. intros s [H|H]; [injection H as <-; reflexivity|].
    apply in_map_iff in H. destruct H as [z [Hz _]]. discriminate.
  - apply Sorted_StronglySorted; [intros x y z; apply Z.lt_trans|].
    assert (Hnd : List.NoDup (py_sorted Z.leb (py_unique Z.eqb (year_values t)))).
    { eapply Permutation_NoDup; [symmetry; apply Permutation_py_sorted|].
      apply (NoDup_unique_aux Z.eqb Z.eqb_eq). }
    pose proof (Sorted_py_sorted (py_unique Z.eqb (year_values t))) as Hs.
    revert Hnd Hs. generalize (py_sorted Z.leb (py_unique Z.eqb (year_values t))).
    induction l as [|a rest IH]; intros Hnd Hs; [constructor|].
    inversion Hnd; inversion Hs; subst. constructor; [apply IH; assumption|].
    destruct rest as [|b rest']; constructor.
    match goal with H : HdRel _ _ _ |- _ => inversion H; subst end.
    assert (a <> b) by (intros ->; simpl in *; tauto). lia.
  - intros y cfg Hy Hcfg Hnil. apply Hin in Hy. destruct Hy as [r [d [Hr [Hd Hyear]]]].
    unfold year_step, year_active in Hnil. rewrite Hcfg in Hnil.
    assert (Hk : In r (List.filter (year_pred cfg) t)).
    { apply filter_In. split; [exact Hr|]. unfold year_pred, year_eq.
      rewrite Hd, Hcfg. apply Z.eqb_eq. exact Hyear. }
    rewrite Hnil in Hk. destruct Hk.
Qed.

(** ** Bounds of the quick stats *)

Lemma non_nan_In (q : Q) (xs : list pyfloat) : In q (non_nan xs) -> In (Num q) xs.
Proof.
  induction xs as [|x rest IH]; simpl; [tauto|].
  destruct x as [q'|]; simpl.
  - intros [->|H]; [left; reflexivity|right; apply IH, H].
  - intros H. right. apply IH, H.
Qed.

Lemma Qsum_nonneg (ys : list Q) : (forall q, In q ys -> 0 <= q)%Q -> (0 <= Qsum ys)%Q.
Proof.
  induction ys as [|y rest IH]; intros H; simpl; [apply Qle_refl|].
  rewrite <- (Qplus_0_l 0). apply Qplus_le_compat.
  - apply H. left. reflexivity.
  - apply IH. intros q Hq. apply H. right. exact Hq.
Qed.

Lemma Qsum_le_length (ys : list Q) :
  (forall q, In q ys -> q <= 1)%Q -> (Qsum ys <= inject_Z (Z.of_nat (length ys)))%Q.
Proof.
  induction ys as [|y rest IH]; intros H; [apply Qle_refl|].
  change (Qsum (y :: rest)) with (y + Qsum rest)%Q.
  change (length (y :: rest)) with (S (length rest)).
  rewrite Nat2Z.inj_succ, <- Z.add_1_l, inject_Z_plus.
  apply Qplus_le_compat.
  - apply H. left. reflexivity.
  - apply IH. intros q Hq. apply H. right. exact Hq.
Qed.

Lemma length_pos_Q (y : Q) (ys : list Q) : (0 < inject_Z (Z.of_nat (length (y :: ys))))%Q.
Proof. unfold Qlt. simpl. lia. Qed.

Lemma py_mean_nonneg (xs : list pyfloat) :
  (forall q, In (Num q) xs -> 0 <= q)%Q ->
  py_mean xs = NaN \/ exists q, py_mean xs = Num q /\ (0 <= q)%Q.
Proof.
  intros H. unfold py_mean.
  destruct (non_nan xs) as [|y ys] eqn:E; [left; reflexivity|right].
  eexists. split; [reflexivity|].
  apply Qle_shift_div_l; [apply length_pos_Q|].
  rewrite Qmult_0_l. apply Qsum_nonneg. intros q Hq.
  apply H, non_nan_In. rewrite E. exact Hq.
Qed.

Lemma py_mean_unit (xs : list pyfloat) :
  (forall q, In (Num q) xs -> 0 <= q /\ q <= 1)%Q ->
  py_mean xs = NaN \/ exists q, py_mean xs = Num q /\ (0 <= q /\ q <= 1)%Q.
Proof.
  intros H. unfold py_mean.
  destruct (non_nan xs) as [|y ys] eqn:E; [left; reflexivity|right].
  assert (Hin : forall q, In q (y :: ys) -> (0 <= q /\ q <= 1)%Q).
  { intros q Hq. apply H, non_nan_In. rewrite E. exact Hq. }
  eexists. split; [reflexivity|]. split.
  - apply Qle_shift_div_l; [apply length_pos_Q|].
    rewrite Qmult_0_l. apply Qsum_nonneg. intros q Hq. apply Hin, Hq.
  - apply Qle_shift_div_r; [apply length_pos_Q|].
    rewrite Qmult_1_l. apply Qsum_le_length. intros q Hq. apply Hin, Hq.
Qed.

Lemma uint_chars_no_minus (u : Decimal.uint) : ~ In "-"%char (uint_chars u).
Proof. induction u; simpl; [tauto|..]; intros [H|H]; (discriminate || contradiction). Qed.

Lemma group3_rev_In (c : ascii) (cs : list ascii) :
  In c (group3_rev cs) -> In c cs \/ c = ","%char.
Proof.
  remember (length cs) as n eqn:Hn. revert cs Hn.
  induction n as [n IH] using (well_founded_induction lt_wf). intros cs Hn.
  destruct cs as [|a [|b [|d [|e rest]]]]; simpl; try tauto.
  intros [H|[H|[H|[H|H]]]]; try (left; simpl; tauto); [right; congruence|].
  destruct (IH (length (e :: rest)) ltac:(simpl in *; lia) (e :: rest) eq_refl H) as [H'|H'].
  - left. simpl. tauto.
  - right. exact H'.
Qed.

Lemma format_float_no_minus (prec : nat) (grouping : bool) (x : pyfloat) :
  (x = NaN \/ exists q, x = Num q /\ (0 <= q)%Q) ->
  ~ In "-"%char (list_ascii_of_string (format_float prec grouping x)).
Proof.
  intros [->|[q [-> Hq]]]; [simpl; intuition discriminate|].
  unfold format_float. apply Qle_bool_iff in Hq. rewrite Hq.
  rewrite list_ascii_of_string_of_list_ascii. simpl.
  intros Hin. apply in_app_or in Hin. destruct Hin as [Hin|Hin].
  - destruct grouping.
    + apply in_rev, group3_rev_In in Hin. destruct Hin as [Hin|Hin]; [|discriminate].
      apply in_rev in Hin. exact (uint_chars_no_minus _ Hin).
    + exact (uint_chars_no_minus _ Hin).
  - destruct prec as [|p]; [destruct Hin|].
    destruct Hin as [Hin|Hin]; [discriminate|].
    unfold pad_zeros in Hin. apply in_app_or in Hin. destruct Hin as [Hin|Hin].
    + apply repeat_spec in Hin. discriminate.
    + exact (uint_chars_no_minus _ Hin).
Qed.

Lemma list_ascii_of_string_append (s1 s2 : string) :
  list_ascii_of_string (String.append s1 s2) = list_ascii_of_string s1 ++ list_ascii_of_string s2.
Proof. induction s1 as [|c s1 IH]; simpl; [reflexivity|rewrite IH; reflexivity]. Qed.

Lemma load_row_billing_nonneg {F : Type} (parse_with : F -> string -> option Datetime)
  (fa fd : F) (raw : RawRow) (row : Row) (q : Q) :
  load_row parse_with fa fd raw = inr row -> billing_amount row = Num q -> (0 <= q)%Q.
Proof.
  unfold load_row. destruct (timedelta_ns _ _); [discriminate|]. intros Hr. injection Hr as <-.
  simpl. unfold clip_lower0. destruct (raw_billing_amount raw) as [b|]; [|discriminate].
  destruct (Qle_bool 0 b) eqn:E; intros H; injection H as <-.
  - apply Qle_bool_iff, E.
  - apply Qle_refl.
Qed.

Lemma Forall2_In_r {A B : Type} (P : A -> B -> Prop) (l : list A) (l' : list B) (y : B) :
  Forall2 P l l' -> In y l' -> exists x, In x l /\ P x y.
Proof.
  intros H. induction H as [|a b la lb Hab _ IH]; intros Hin; [destruct Hin|].
  destruct Hin as [<-|Hin]; [exists a; split; [left; reflexivity|exact Hab]|].
  destruct (IH Hin) as [x' [Hx' Hp]]. exists x'. split; [right; exact Hx'|exact Hp].
Qed.

(** When [load_data] returns a table, the average billing of any filtered
    view of it is NaN or non-negative, and the "Rata-rata Biaya" text
    never shows a minus sign. *)
Theorem loaded_avg_bill_nonneg (DateFormat : Type) (guess_format : list string -> DateFormat)
  (parse_with : DateFormat -> string -> option Datetime) (csv : list RawRow) (t : Table)
  (Hload : load_data guess_format parse_with csv = inr t) (cfg : Config) :
  (avg_bill (filter_df cfg t) = NaN
   \/ exists q, avg_bill (filter_df cfg t) = Num q /\ (0 <= q)%Q)
  /\ ~ In "-"%char (list_ascii_of_string (metric_value (bill_metric (filter_df cfg t)))).
Proof.
  assert (Hm : avg_bill (filter_df cfg t) = NaN
   \/ exists q, avg_bill (filter_df cfg t) = Num q /\ (0 <= q)%Q).
  { apply py_mean_nonneg. intros q Hq. apply in_map_iff in Hq. destruct Hq as [r [Hb Hr]].
    rewrite filter_df_as_filter, filter_In in Hr. destruct Hr as [Hr _].
    unfold load_data in Hload. apply load_rows_ok in Hload.
    destruct (Forall2_In_r _ _ _ r Hload Hr) as [raw [_ Hraw]].
    exact (load_row_billing_nonneg _ _ _ raw r q Hraw Hb). }
  split; [exact Hm|].
  unfold bill_metric. simpl. intros [H|H]; [discriminate|].
  exact (format_float_no_minus 0 true _ Hm H).
Qed.

Lemma loaded_avg_bill_nonneg_witness :
  match load_data iso_guess iso_parse example_csv with
  | inr t => ~ In "-"%char (list_ascii_of_string (metric_value (bill_metric (filter_df example_cfg t))))
  | inl _ => False
  end.
Proof.
  destruct (load_data iso_guess iso_parse example_csv) as [e|t] eqn:E.
  - vm_compute in E. discriminate.
  - exact (proj2 (loaded_avg_bill_nonneg unit iso_guess iso_parse example_csv t E example_cfg)).
Defined.

(** The recovery rate of any table is NaN or lies in [0, 100], and its
    text never shows a minus sign. *)
Theorem recovery_rate_bounds (t : Table) :
  (recovery_rate t = NaN \/ exists q, recovery_rate t = Num q /\ (0 <= q /\ q <= 100)%Q)
  /\ ~ In "-"%char (list_ascii_of_string (metric_value (recovery_metric t))).
Proof.
  assert (Hm : recovery_rate t = NaN \/ exists q, recovery_rate t = Num q /\ (0 <= q /\ q <= 100)%Q).
  { unfold recovery_rate.
    destruct (py_mean_unit (map (fun r => of_bool (String.eqb (test_results r) "Normal")) t))
      as [->|[q [-> [H0 H1]]]].
    - intros q Hq. apply in_map_iff in Hq. destruct Hq as [r [Hb _]].
      unfold of_bool in Hb. destruct (String.eqb _ _); injection Hb as <-;
        split; unfold Qle; simpl; lia.
    - left. reflexivity.
    - right. eexists. split; [reflexivity|]. split.
      + rewrite <- (Qmult_0_l 100). apply Qmult_le_compat_r; [exact H0|unfold Qle; simpl; lia].
      + rewrite <- (Qmult_1_l 100) at 2. apply Qmult_le_compat_r; [exact H1|unfold Qle; simpl; lia]. }
  split; [exact Hm|].
  unfold recovery_metric. simpl. rewrite list_ascii_of_string_append. intros Hin.
  apply in_app_or in Hin. destruct Hin as [Hin|[Hin|[]]]; [|discriminate].
  revert Hin. apply format_float_no_minus.
  destruct Hm as [Hm|[q [Hm [Hq _]]]]; [left; exact Hm|right; exists q; auto].
Qed.

(** ** Top conditions (lines 153-162) *)

Lemma frac_unit_bounds (n total : nat) :
  (0 < n)%nat -> (n <= total)%nat ->
  (0 < inject_Z (Z.of_nat n) / inject_Z (Z.of_nat total) /\
   inject_Z (Z.of_nat n) / inject_Z (Z.of_nat total) <= 1)%Q.
Proof.
  intros Hn Hle.
  assert (Ht : (0 < inject_Z (Z.of_nat total))%Q) by (unfold Qlt; simpl; lia).
  split.
  - apply Qlt_shift_div_l; [exact Ht|]. rewrite Qmult_0_l. unfold Qlt; simpl; lia.
  - apply Qle_shift_div_r; [exact Ht|]. rewrite Qmult_1_l. unfold Qle; simpl; lia.
Qed.

Lemma count_str_pos (c : string) (col : list string) : In c col -> (0 < count_str c col)%nat.
Proof.
  intros Hin. unfold count_str.
  destruct (List.filter (String.eqb c) col) eqn:E; simpl; [|lia].
  assert (Hf : In c (List.filter (String.eqb c) col)).
  { apply filter_In. split; [exact Hin|apply String.eqb_refl]. }
  rewrite E in Hf. destruct Hf.
Qed.

Lemma count_str_le (c : string) (col : list string) : (count_str c col <= length col)%nat.
Proof.
  unfold count_str. induction col as [|x rest IH]; simpl; [lia|].
  destruct (String.eqb c x); simpl; lia.
Qed.

(** In whatever order pandas ranks the counts of [medical_condition], the
    loop over [value_counts().head(10)] shows one row per distinct
    condition, at most ten; each shown condition occurs in the view, its
    count is positive and at most [len(filtered_df)], its percentage lies
    in (0, 100] and the value passed to [st.progress] in (0, 1]: the
    division by [len(filtered_df)] never meets a zero. *)
Theorem top_conditions_progress_valid (t : Table) (ordered : list (string * nat))
  (Hperm : Permutation (value_counts_str (map medical_condition t)) ordered) :
  length (top_condition_rows ordered t)
    = Nat.min 10 (length (py_unique String.eqb (map medical_condition t)))
  /\ forall c n pct v, In (c, n, pct, v) (top_condition_rows ordered t) ->
       In c (map medical_condition t) /\ (0 < n)%nat /\ (n <= length t)%nat
       /\ (0 < pct /\ pct <= 100)%Q /\ (0 < v /\ v <= 1)%Q.
Proof.
  split.
  - unfold top_condition_rows. rewrite length_map, length_firstn.
    rewrite <- (Permutation_length Hperm). unfold value_counts_str. rewrite length_map.
    reflexivity.
  - intros c n pct v Hin. unfold top_condition_rows in Hin.
    apply in_map_iff in Hin. destruct Hin as [[c' n'] [Heq Hp]]. simpl in Heq.
    injection Heq as -> -> <- <-.
    assert (Hp' : In (c, n) ordered)
      by (rewrite <- (firstn_skipn 10 ordered); apply in_or_app; left; exact Hp).
    clear Hp; rename Hp' into Hp.
    apply (Permutation_in _ (Permutation_sym Hperm)) in Hp.
    unfold value_counts_str in Hp. apply in_map_iff in Hp.
    destruct Hp as [c0 [Heq Hc0]]. injection Heq as -> <-.
    unfold py_unique in Hc0.
    apply (In_unique_aux String.eqb (fun x y => String.eqb_eq x y)) in Hc0.
    destruct Hc0 as [Hc _].
    pose proof (count_str_pos _ _ Hc) as Hpos.
    pose proof (count_str_le c (map medical_condition t)) as Hle.
    rewrite length_map in Hle.
    destruct (frac_unit_bounds _ _ Hpos Hle) as [H0 H1].
    unfold percentage.
    set (x := (inject_Z (Z.of_nat (count_str c (map medical_condition t)))
               / inject_Z (Z.of_nat (length t)))%Q) in *.
    assert (Hx : (x * 100 / 100 == x)%Q) by (field; discriminate).
    simpl. rewrite Hx.
    repeat split; try assumption.
    + apply Qmult_lt_0_compat; [exact H0|reflexivity].
    + rewrite <- (Qmult_1_l 100) at 2. apply Qmult_le_compat_r; [exact H1|unfold Qle; simpl; lia].
Qed.

Lemma top_conditions_progress_valid_witness :
  Permutation (value_counts_str (map medical_condition example_table))
    [("Diabetes"%string, 2%nat)]
  /\ length (top_condition_rows [("Diabetes"%string, 2%nat)] example_table) = 1%nat.
Proof.
  assert (Hp : Permutation (value_counts_str (map medical_condition example_table))
                 [("Diabetes"%string, 2%nat)]) by (vm_compute; apply Permutation_refl).
  split; [exact Hp|].
  exact (proj1 (top_conditions_progress_valid example_table _ Hp)).
Defined.

(** ** Seasonal pattern (lines 165-170) *)

Definition month_of (m : Z) (r : Row) : bool :=
  match date_of_admission r with
  | Some d => Z.eqb (dt_month d) m
  | None => false
  end.

Definition twelve_months : list Z := [1; 2; 3; 4; 5; 6; 7; 8; 9; 10; 11; 12].

Lemma month_indicator_sum (m : Z) :
  (1 <= m <= 12)%Z ->
  list_sum (map (fun k => if Z.eqb m k then 1%nat else 0%nat) twelve_months) = 1%nat.
Proof.
  intros Hm.
  assert (m = 1 \/ m = 2 \/ m = 3 \/ m = 4 \/ m = 5 \/ m = 6 \/ m = 7 \/ m = 8
          \/ m = 9 \/ m = 10 \/ m = 11 \/ m = 12)%Z as Hc by lia.
  repeat destruct Hc as [->|Hc]; [reflexivity..|subst; reflexivity].
Qed.

Lemma month_indicator_none :
  list_sum (map (fun _ : Z => 0%nat) twelve_months) = 0%nat.
Proof. reflexivity. Qed.

Definition has_date (r : Row) : bool :=
  match date_of_admission r with Some _ => true | None => false end.

Lemma month_counts_eq (t : Table) :
  month_counts t = map (fun m => length (List.filter (month_of m) t)) twelve_months.
Proof. reflexivity. Qed.

(** The seasonal chart has one bar per month, January to December, and
    when every parsed admission date has a month in 1..12 the bars add up
    to the number of rows whose admission date was parsed: a row with
    [NaT] is counted in no month, every other row in exactly one. *)
Theorem month_counts_total (t : Table)
  (Hmonths : forall r d, In r t -> date_of_admission r = Some d -> (1 <= dt_month d <= 12)%Z) :
  length (month_counts t) = 12%nat
  /\ list_sum (month_counts t) = length (List.filter has_date t).
Proof.
  split; [reflexivity|]. rewrite month_counts_eq.
  induction t as [|r rest IH]; [reflexivity|].
  rewrite (map_ext_in _ (fun m => ((if month_of m r then 1 else 0)
                                    + length (List.filter (month_of m) rest))%nat))
    by (intros m _; simpl; destruct (month_of m r); reflexivity).
  rewrite sum_map_add, IH by (intros r' d Hr; apply Hmonths; right; exact Hr).
  cbn [List.filter].
  destruct (date_of_admission r) as [d|] eqn:Ed.
  - replace (has_date r) with true by (unfold has_date; rewrite Ed; reflexivity).
    cbn [length]. unfold month_of at 1. rewrite Ed.
    rewrite (month_indicator_sum (dt_month d) (Hmonths r d (or_introl eq_refl) Ed)).
    reflexivity.
  - replace (has_date r) with false by (unfold has_date; rewrite Ed; reflexivity).
    unfold month_of at 1. rewrite Ed. reflexivity.
Qed.

Lemma month_counts_total_witness :
  (forall r d, In r example_table -> date_of_admission r = Some d -> (1 <= dt_month d <= 12)%Z)
  /\ list_sum (month_counts example_table) = 2%nat.
Proof.
  assert (H : forall r d, In r example_table -> date_of_admission r = Some d ->
                          (1 <= dt_month d <= 12)%Z).
  { intros r d Hr Hd. simpl in Hr.
    destruct Hr as [<-|[<-|[]]]; simpl in Hd; injection Hd as <-; simpl; lia. }
  split; [exact H|].
  exact (proj2 (month_counts_total example_table H)).
Defined.

(** ** The age slider (lines 82-87, 95) *)

Lemma age_pred_narrow (cfg1 cfg2 : Config) (r : Row) :
  (fst (age_range cfg2) <= fst (age_range cfg1))%Z ->
  (snd (age_range cfg1) <= snd (age_range cfg2))%Z ->
  age_pred cfg1 r = age_pred cfg2 r && age_pred cfg1 r.
Proof.
  intros Hlo Hhi. unfold age_pred. destruct (age r) as [a|]; [|reflexivity].
  destruct (Z.leb_spec (fst (age_range cfg1)) a), (Z.leb_spec a (snd (age_range cfg1)));
    simpl; rewrite ?andb_false_r; [|reflexivity..].
  destruct (Z.leb_spec (fst (age_range cfg2)) a); [|lia].
  destruct (Z.leb_spec a (snd (age_range cfg2))); [reflexivity|lia].
Qed.

(** Narrowing the age range, with the same year and condition, narrows
    the view: the narrower view is the wider one with the narrower age
    test applied to it, so it keeps its rows in the same order. *)
Theorem age_range_narrowing (cfg1 cfg2 : Config) (t : Table)
  (Hy : year_filter cfg1 = year_filter cfg2)
  (Hc : condition_filter cfg1 = condition_filter cfg2)
  (Hlo : (fst (age_range cfg2) <= fst (age_range cfg1))%Z)
  (Hhi : (snd (age_range cfg1) <= snd (age_range cfg2))%Z) :
  filter_df cfg1 t = List.filter (age_pred cfg1) (filter_df cfg2 t).
Proof.
  rewrite !filter_df_as_filter, filter_filter_and. apply filter_ext_eq. intros r.
  unfold year_active, year_pred, condition_active, condition_pred.
  rewrite !Hy, !Hc. rewrite (age_pred_narrow cfg1 cfg2 r Hlo Hhi) at 1.
  rewrite !andb_assoc. reflexivity.
Qed.

Lemma age_range_narrowing_witness :
  filter_df (mkConfig (OptNum 2022) condition_all (20, 40)) example_table
  = List.filter (age_pred (mkConfig (OptNum 2022) condition_all (20, 40)))
      (filter_df example_cfg example_table).
Proof.
  apply (age_range_narrowing _ example_cfg example_table eq_refl eq_refl);
    simpl; lia.
Defined.

(** One step of [series_min] ([op = Z.min]) or [series_max] ([op = Z.max]). *)
Definition skipna_step (op : Z -> Z -> Z) (acc x : option Z) : option Z :=
  match x, acc with
  | None, _ => acc
  | Some b, None => Some b
  | Some b, Some a => Some (op a b)
  end.

Lemma series_min_fold (xs : list (option Z)) : series_min xs = fold_left (skipna_step Z.min) xs None.
Proof. reflexivity. Qed.

Lemma series_max_fold (xs : list (option Z)) : series_max xs = fold_left (skipna_step Z.max) xs None.
Proof. reflexivity. Qed.

Lemma skipna_fold_none (op : Z -> Z -> Z) (xs : list (option Z)) (acc : option Z) :
  fold_left (skipna_step op) xs acc = None <-> acc = None /\ forall x, In x xs -> x = None.
Proof.
  revert acc. induction xs as [|x rest IH]; intros acc; simpl.
  - split; [intros H; split; [exact H|intros _ []]|intros [H _]; exact H].
  - rewrite IH. destruct x as [b|], acc as [a|]; simpl.
    + split; [intros [H _]; discriminate|intros [H _]; discriminate].
    + split; [intros [H _]; discriminate|intros [_ H]; specialize (H (Some b) (or_introl eq_refl)); discriminate].
    + split; [intros [H _]; discriminate|intros [H _]; discriminate].
    + split.
      * intros [_ H]. split; [reflexivity|]. intros x [<-|Hx]; [reflexivity|apply H, Hx].
      * intros [_ H]. split; [reflexivity|]. intros x Hx. apply H. right. exact Hx.
Qed.

Section SkipnaSelect.

(** A selecting operation ([Z.min] for [R = Z.le], [Z.max] for the
    converse order): it returns one of its arguments, below both. *)
Variable op : Z -> Z -> Z.
Variable R : Z -> Z -> Prop.
Hypothesis R_refl : forall a, R a a.
Hypothesis R_trans : forall a b c, R a b -> R b c -> R a c.
Hypothesis op_sel : forall a b, op a b = a \/ op a b = b.
Hypothesis op_below : forall a b, R (op a b) a /\ R (op a b) b.

Lemma skipna_fold_some (xs : list (option Z)) (acc : option Z) (m : Z) :
  fold_left (skipna_step op) xs acc = Some m ->
  (acc = Some m \/ In (Some m) xs)
  /\ (forall a, acc = Some a -> R m a)
  /\ (forall b, In (Some b) xs -> R m b).
Proof.
  revert acc. induction xs as [|x rest IH]; intros acc H; simpl in H.
  - subst acc. split; [left; reflexivity|split; [intros a Ha; injection Ha as <-; apply R_refl|intros b []]].
  - destruct (IH _ H) as [Hin [Hacc Hall]].
    destruct x as [b|], acc as [a|]; simpl in Hin, Hacc.
    + destruct (op_below a b) as [Ha Hb].
      assert (Hm : R m (op a b)) by (apply Hacc; reflexivity).
      split; [|split].
      * destruct Hin as [Hin|Hin]; [|right; right; exact Hin].
        injection Hin as Hin. destruct (op_sel a b) as [E|E]; rewrite E in Hin; subst.
        -- left. reflexivity.
        -- right. left. reflexivity.
      * intros a' Ha'. injection Ha' as <-. eauto.
      * intros b' [Hb'|Hb']; [injection Hb' as <-; eauto|apply Hall, Hb'].
    + split; [|split].
      * destruct Hin as [Hin|Hin]; [right; left; exact Hin|right; right; exact Hin].
      * intros a' Ha'. discriminate.
      * intros b' [Hb'|Hb']; [injection Hb' as <-; apply Hacc; reflexivity|apply Hall, Hb'].
    + split; [|split].
      * destruct Hin as [Hin|Hin]; [left; exact Hin|right; right; exact Hin].
      * exact Hacc.
      * intros b' [Hb'|Hb']; [discriminate|apply Hall, Hb'].
    + split; [|split].
      * destruct Hin as [Hin|Hin]; [discriminate|right; right; exact Hin].
      * intros a' Ha'. discriminate.
      * intros b' [Hb'|Hb']; [discriminate|apply Hall, Hb'].
Qed.

End SkipnaSelect.

Lemma series_min_some (xs : list (option Z)) (m : Z) :
  series_min xs = Some m -> In (Some m) xs /\ forall b, In (Some b) xs -> m <= b.
Proof.
  rewrite series_min_fold. intros H.
  destruct (skipna_fold_some Z.min Z.le Z.le_refl Z.le_trans
              (fun a b => ltac:(destruct (Z.min_spec a b) as [[_ E]|[_ E]]; auto))
              (fun a b => conj (Z.le_min_l a b) (Z.le_min_r a b)) xs None m H)
    as [[Hn|Hin] [_ Hall]]; [discriminate|]. auto.
Qed.

Lemma series_max_some (xs : list (option Z)) (m : Z) :
  series_max xs = Some m -> In (Some m) xs /\ forall b, In (Some b) xs -> b <= m.
Proof.
  rewrite series_max_fold. intros H.
  destruct (skipna_fold_some Z.max (fun x y => y <= x) Z.le_refl
              (fun a b c Hab Hbc => Z.le_trans c b a Hbc Hab)
              (fun a b => ltac:(destruct (Z.max_spec a b) as [[_ E]|[_ E]]; auto))
              (fun a b => conj (Z.le_max_l a b) (Z.le_max_r a b)) xs None m H)
    as [[Hn|Hin] [_ Hall]]; [discriminate|]. auto.
Qed.

Lemma map_age_none (t : Table) :
  (forall x, In x (map age t) -> x = None) <-> forall r, In r t -> age r = None.
Proof.
  split.
  - intros H r Hr. apply H, in_map, Hr.
  - intros H x Hx. apply in_map_iff in Hx. destruct Hx as [r [<- Hr]]. apply H, Hr.
Qed.

(** The slider cannot be built ([int(nan)] raises on [df['age'].min()])
    exactly when no row has an age: [Series.min] and [Series.max] skip the
    missing ages and are NaN only when none is left. *)
Theorem slider_bounds_none_iff (t : Table) :
  slider_bounds t = None <-> forall r, In r t -> age r = None.
Proof.
  rewrite <- map_age_none. unfold slider_bounds.
  pose proof (skipna_fold_none Z.min (map age t) None) as Hmin.
  pose proof (skipna_fold_none Z.max (map age t) None) as Hmax.
  rewrite <- series_min_fold in Hmin. rewrite <- series_max_fold in Hmax.
  destruct (series_min (map age t)) as [lo|], (series_max (map age t)) as [hi|].
  - split; [discriminate|]. intros H. assert (Hc := proj2 Hmin (conj eq_refl H)). discriminate.
  - split; [intros _; apply (proj1 Hmax eq_refl)|reflexivity].
  - split; [intros _; apply (proj1 Hmin eq_refl)|reflexivity].
  - split; [intros _; apply (proj1 Hmin eq_refl)|reflexivity].
Qed.

(** The slider's bounds are an age of some row each, every age lies
    between them, and leaving the slider at its full range (with the other
    two filters at their sentinels) keeps exactly the rows that have an
    age: only rows with a missing age leave the view. *)
Theorem slider_full_range (t : Table) (lo hi : Z)
  (Hb : slider_bounds t = Some (lo, hi)) :
  (lo <= hi)%Z
  /\ (exists r, In r t /\ age r = Some lo)
  /\ (exists r, In r t /\ age r = Some hi)
  /\ (forall r a, In r t -> age r = Some a -> (lo <= a <= hi)%Z)
  /\ filter_df (mkConfig (OptStr year_all) condition_all (lo, hi)) t
     = List.filter (fun r => match age r with Some _ => true | None => false end) t.
Proof.
  unfold slider_bounds in Hb.
  destruct (series_min (map age t)) as [lo'|] eqn:Emin; [|discriminate].
  destruct (series_max (map age t)) as [hi'|] eqn:Emax; [|discriminate].
  injection Hb as <- <-.
  destruct (series_min_some _ _ Emin) as [Hlo_in Hlo_le].
  destruct (series_max_some _ _ Emax) as [Hhi_in Hhi_le].
  assert (Hwit : forall m, In (Some m) (map age t) -> exists r, In r t /\ age r = Some m).
  { intros m Hm. apply in_map_iff in Hm. destruct Hm as [r [Hr Hin]]. exists r. auto. }
  assert (Hbound : forall r x, In r t -> age r = Some x -> (lo' <= x <= hi')%Z).
  { intros r x Hr Hx. assert (Hin : In (Some x) (map age t)) by (rewrite <- Hx; apply in_map, Hr).
    split; [apply Hlo_le|apply Hhi_le]; exact Hin. }
  split; [|split; [apply Hwit, Hlo_in|split; [apply Hwit, Hhi_in|split; [exact Hbound|]]]].
  - destruct (Hwit lo' Hlo_in) as [r [Hr Ha]]. destruct (Hbound r lo' Hr Ha). lia.
  - rewrite filter_df_as_filter. apply List.filter_ext_in. intros r Hr.
    unfold year_active, condition_active, age_pred. simpl.
    destruct (age r) as [x|] eqn:Hx; [|rewrite ?andb_false_r; reflexivity].
    destruct (Hbound r x Hr Hx).
    destruct (Z.leb_spec lo' x); [|lia].
    destruct (Z.leb_spec x hi'); [reflexivity|lia].
Qed.

Lemma slider_full_range_witness :
  slider_bounds example_table = Some (30, 70)%Z
  /\ filter_df (mkConfig (OptStr year_all) condition_all (30, 70)) example_table = example_table.
Proof.
  assert (Hb : slider_bounds example_table = Some (30, 70)%Z) by reflexivity.
  split; [exact Hb|].
  rewrite (proj2 (proj2 (proj2 (proj2 (slider_full_range example_table 30 70 Hb))))).
  reflexivity.
Defined.
